(** * OCCO basic infrastructure processor: commands and node-creation protocol

    A shallow embedding of [occo/infraprocessor/basic_infraprocessor.py].

    The four commands ([CreateInfrastructure], [CreateNode], [DropNode],
    [DropInfrastructure]) are Python methods that call external collaborators
    (resolver, service composer, cloud handler, user data store, information
    broker, readiness poll) and mutate one dictionary, [instance_data].

    - Python objects are values of [pyval].  The dictionary that the code
      mutates lives in a store ([heap]) and is passed around as a reference
      ([PRef]), so that the mutations done by [_perform_create] are seen by
      the [except] clause of [perform] and by whoever holds the reference.
    - The collaborators are an arbitrary deterministic environment: a state
      of any type [S] and a function [respond] which, for every call, either
      returns a value, raises an exception, or never returns.  They read the
      store and do not write it.
    - Every collaborator call is recorded in a [trace], together with the
      store at the time of the call, the way a recording test double would.
    - Logging ([log.debug], [log.info], [yaml.dump]) has no effect on the
      modelled state and is left out, except for the collaborator calls and
      subscripts evaluated to build the log arguments.
    - [uuid.uuid4()] draws from an entropy source that is part of the
      environment and always answers. *)

From Stdlib Require Import ZArith Ascii String.
From stdpp Require Import base gmap list strings.

#[local] Open Scope Z_scope.
#[local] Set Warnings "-register-all".

(** ** Python values, references and exceptions *)

Definition ref := nat.

Inductive pyval :=
  | PNone
  | PStr (s : string)
  | PInt (z : Z)
  | PDict (d : gmap string pyval)
  | PRef (l : ref).

Abbreviation dict := (gmap string pyval).
Abbreviation heap := (list (gmap string pyval)).

(** [KeyboardInterrupt] and [SystemExit] derive from [BaseException] only;
    everything else below derives from [Exception]. *)
Inductive exn :=
  | KeyboardInterrupt
  | SystemExit
  | KeyError (key : string)
  | TypeError
  | RuntimeError (msg : string)
  | NodeCreationError (instance_data : pyval) (cause : exn).

Definition is_Exception (e : exn) : bool :=
  match e with
  | KeyboardInterrupt | SystemExit => false
  | _ => true
  end.

(** The three ways a Python call can end: a value, an exception, or no end at
    all (the readiness poll has no timeout). *)
Inductive outcome (A : Type) :=
  | Ok (a : A)
  | Raise (e : exn)
  | Diverges.
Arguments Ok {A} a.
Arguments Raise {A} e.
Arguments Diverges {A}.

(** [o[k]] in the store [h]: a [KeyError] for a missing key, a [TypeError] for
    an object that has no subscript.  References are only made by [dict(...)],
    so the object of a reference is always in the store. *)
Definition subscript (h : heap) (o : pyval) (k : string) : outcome pyval :=
  match o with
  | PDict d =>
      match d !! k with
      | Some v => Ok v
      | None => Raise (KeyError k)
      end
  | PRef l =>
      match h !! l with
      | Some d =>
          match d !! k with
          | Some v => Ok v
          | None => Raise (KeyError k)
          end
      | None => Raise (KeyError k)
      end
  | _ => Raise TypeError
  end.

(** ** uuid.uuid4 and str(UUID), after CPython's [uuid] module *)

Module uuid.

(** [UUID.__init__(bytes=..., version=4)]: variant and version bits. *)
Definition set_version (version : Z) (int : Z) : Z :=
  let int := Z.land int (Z.lnot (Z.shiftl 0xc000 48)) in
  let int := Z.lor int (Z.shiftl 0x8000 48) in
  let int := Z.land int (Z.lnot (Z.shiftl 0xf000 64)) in
  Z.lor int (Z.shiftl version 76).

(** [uuid4()] on the 16 bytes of [os.urandom(16)], read as an integer. *)
Definition uuid4_of (random : Z) : Z := set_version 4 (random mod 2 ^ 128).

Definition hex_digit (d : Z) : ascii :=
  nth (Z.to_nat d)
      ["0"; "1"; "2"; "3"; "4"; "5"; "6"; "7";
       "8"; "9"; "a"; "b"; "c"; "d"; "e"; "f"]%char "0"%char.

(** ['%0kx' % n], most significant digit first. *)
Fixpoint hex (k : nat) (n : Z) : list ascii :=
  match k with
  | O => []
  | S k' => hex k' (n / 16) ++ [hex_digit (n mod 16)]
  end.

(** ['%s-%s-%s-%s-%s' % (hex[:8], hex[8:12], hex[12:16], hex[16:20], hex[20:])] *)
Definition dashed (h : list ascii) : list ascii :=
  take 8 h ++ "-"%char :: take 4 (drop 8 h) ++ "-"%char ::
  take 4 (drop 12 h) ++ "-"%char :: take 4 (drop 16 h) ++ "-"%char ::
  drop 20 h.

(** [UUID.__str__] *)
Definition str (int : Z) : string :=
  string_of_list_ascii (dashed (hex 32 int)).

End uuid.

(** ** Calls to the outside, and what a recording double sees *)

(** [resolve_node] also receives the information broker of the context,
    which is the environment itself. *)
Inductive call :=
  | resolve_node (node_id node_description : pyval)
  | servicecomposer_register_node (resolved_node_def : pyval)
  | cloudhandler_create_node (resolved_node_def : pyval)
  | uds_register_started_node (infra_id name instance_data : pyval)
  | ib_get (key : string) (instance_data : pyval)
  | synch_wait_for_node (instance_data : pyval) (poll_delay : Z)
  | cloudhandler_drop_node (instance_data : pyval)
  | servicecomposer_drop_node (instance_data : pyval)
  | servicecomposer_create_infrastructure (infra_id : pyval)
  | servicecomposer_drop_infrastructure (infra_id : pyval).

Inductive event :=
  | Drawn (u : Z)                  (* uuid.uuid4() produced the UUID [u] *)
  | Invoke (c : call) (h : heap)   (* [c] is called; the store is [h] *)
  | Return (c : call) (v : pyval)  (* [c] returned [v] *)
  | Raised (c : call) (e : exn).   (* [c] raised [e] *)

(** The execution context handed to [perform].  Its collaborators are the
    environment below; what is left of it is the poll delay. *)
Record InfraProcessor := { poll_delay : Z }.

Inductive Command :=
  | CreateInfrastructure (infra_id : pyval)
  | CreateNode (node_description : dict)
  | DropNode (instance_data : pyval)
  | DropInfrastructure (infra_id : pyval).

(** ** The commands *)

Section Commands.

(** The environment: collaborator state, collaborator behaviour, entropy. *)
Context {S : Type}.
Variable respond : call → heap → S → outcome pyval * S.
Variable os_urandom : S → Z * S.

Record world := World { store : heap; trace : list event; ext : S }.

Definition M (A : Type) : Type := world → outcome A * world.

Definition ret {A} (a : A) : M A := λ w, (Ok a, w).

Definition bind {A B} (m : M A) (k : A → M B) : M B :=
  λ w, match m w with
       | (Ok a, w') => k a w'
       | (Raise e, w') => (Raise e, w')
       | (Diverges, w') => (Diverges, w')
       end.

Definition raise {A} (e : exn) : M A := λ w, (Raise e, w).

(** [try: body / except ... as ex: handler / else: orelse].  An exception
    that no [except] clause matches is re-raised by [handler]. *)
Definition try_except_else {A B}
    (body : M A) (handler : exn → M B) (orelse : A → M B) : M B :=
  λ w, match body w with
       | (Ok a, w') => orelse a w'
       | (Raise e, w') => handler e w'
       | (Diverges, w') => (Diverges, w')
       end.

#[export] Instance M_ret : MRet M := @ret.
#[export] Instance M_bind : MBind M := λ A B k m, bind m k.

Definition log (e : event) (w : world) : world :=
  World (store w) (trace w ++ [e]) (ext w).

(** A call to a collaborator or to an imported function. *)
Definition invoke (c : call) : M pyval :=
  λ w, let w1 := log (Invoke c (store w)) w in
       match respond c (store w) (ext w) with
       | (Ok v, s) => (Ok v, log (Return c v) (World (store w1) (trace w1) s))
       | (Raise e, s) => (Raise e, log (Raised c e) (World (store w1) (trace w1) s))
       | (Diverges, s) => (Diverges, World (store w1) (trace w1) s)
       end.

(** [uuid.uuid4()] *)
Definition uuid_uuid4 : M Z :=
  λ w, let '(r, s) := os_urandom (ext w) in
       let u := uuid.uuid4_of r in
       (Ok u, log (Drawn u) (World (store w) (trace w) s)).

(** [dict(...)]: a new dictionary object. *)
Definition new_dict (d : dict) : M ref :=
  λ w, (Ok (length (store w)), World (store w ++ [d]) (trace w) (ext w)).

(** [o[k]] *)
Definition getitem (o : pyval) (k : string) : M pyval :=
  λ w, (subscript (store w) o k, w).

(** [instance_data[k] = v] *)
Definition setitem (l : ref) (k : string) (v : pyval) : M unit :=
  λ w, (Ok tt, World (alter (insert k v) l (store w)) (trace w) (ext w)).

Definition CreateInfrastructure_perform
    (infra_id : pyval) (infraprocessor : InfraProcessor) : M pyval :=
  invoke (servicecomposer_create_infrastructure infra_id).

(** [CreateNode._perform_create].  The two [log.info] subscripts of
    [node_description] and the two [ib.get] calls are the arguments of the
    "received address" log line. *)
Definition CreateNode__perform_create (node_description : dict)
    (infraprocessor : InfraProcessor) (instance_data : ref) : M pyval :=
  node_id ← getitem (PRef instance_data) "node_id";
  resolved_node_def ← invoke (resolve_node node_id (PDict node_description));
  setitem instance_data "resolved_node_definition" resolved_node_def;;
  backend_id ← getitem resolved_node_def "backend_id";
  setitem instance_data "backend_id" backend_id;;
  invoke (servicecomposer_register_node resolved_node_def);;
  instance_id ← invoke (cloudhandler_create_node resolved_node_def);
  setitem instance_data "instance_id" instance_id;;
  infra_id ← getitem (PDict node_description) "infra_id";
  name ← getitem (PDict node_description) "name";
  invoke (uds_register_started_node infra_id name (PRef instance_data));;
  getitem (PDict node_description) "infra_id";;
  getitem (PDict node_description) "name";;
  invoke (ib_get "node.resource.address" (PRef instance_data));;
  invoke (ib_get "node.resource.ip_address" (PRef instance_data));;
  invoke (synch_wait_for_node (PRef instance_data)
                              (poll_delay infraprocessor));;
  ret (PRef instance_data).

(** [instance_data = dict(node_id=str(uuid.uuid4()), user_id=..., ...)] *)
Definition CreateNode_instance_data (node_description : dict) : M ref :=
  u ← uuid_uuid4;
  user_id ← getitem (PDict node_description) "user_id";
  new_dict (<["node_id" := PStr (uuid.str u)]>
            (<["user_id" := user_id]>
             (<["node_description" := PDict node_description]> ∅))).

(** [CreateNode.perform].  The [else] clause evaluates the arguments of its
    log line and returns the record. *)
Definition CreateNode_perform
    (node_description : dict) (infraprocessor : InfraProcessor) : M pyval :=
  instance_data ← CreateNode_instance_data node_description;
  try_except_else
    (CreateNode__perform_create node_description infraprocessor instance_data)
    (λ ex,
       match ex with
       | KeyboardInterrupt => raise KeyboardInterrupt
       | _ =>
           if is_Exception ex
           then raise (NodeCreationError (PRef instance_data) ex)
           else raise ex
       end)
    (λ _,
       getitem (PDict node_description) "infra_id";;
       getitem (PDict node_description) "name";;
       getitem (PRef instance_data) "node_id";;
       ret (PRef instance_data)).

Definition DropNode_perform
    (instance_data : pyval) (infraprocessor : InfraProcessor) : M pyval :=
  invoke (cloudhandler_drop_node instance_data);;
  invoke (servicecomposer_drop_node instance_data);;
  ret PNone.

Definition DropInfrastructure_perform
    (infra_id : pyval) (infraprocessor : InfraProcessor) : M pyval :=
  invoke (servicecomposer_drop_infrastructure infra_id);;
  ret PNone.

(** [command.perform(infraprocessor)] *)
Definition perform (c : Command) (infraprocessor : InfraProcessor) : M pyval :=
  match c with
  | CreateInfrastructure infra_id =>
      CreateInfrastructure_perform infra_id infraprocessor
  | CreateNode node_description =>
      CreateNode_perform node_description infraprocessor
  | DropNode instance_data => DropNode_perform instance_data infraprocessor
  | DropInfrastructure infra_id =>
      DropInfrastructure_perform infra_id infraprocessor
  end.

(** One [CreateNode] invocation after the other, in one process.  Nothing
    follows an invocation that never returns. *)
Fixpoint perform_each (nds : list dict) (infraprocessor : InfraProcessor)
    (w : world) : list (outcome pyval) * world :=
  match nds with
  | [] => ([], w)
  | nd :: nds' =>
      match perform (CreateNode nd) infraprocessor w with
      | (Diverges, w1) => ([Diverges], w1)
      | (o, w1) =>
          let '(os, w2) := perform_each nds' infraprocessor w1 in
          (o :: os, w2)
      end
  end.

End Commands.

Arguments world S : clear implicits.
Arguments M S A : clear implicits.

(** ** The facade: [BasicInfraProcessor] *)

(** [BasicInfraProcessor.__init__]: the attributes of the new object.
    [base] holds the attributes that the constructor of the base class has
    set when it returns, [main_info_broker] is [ib.main_info_broker], and
    [config] holds the keyword arguments that no parameter takes.
    [self.__dict__.update(config)] comes after the base constructor and
    before the five assignments. *)
Definition BasicInfraProcessor___init__ (base : dict)
    (main_info_broker user_data_store cloudhandler servicecomposer
     poll_delay : pyval) (config : dict) : dict :=
  <["poll_delay" := poll_delay]>
    (<["servicecomposer" := servicecomposer]>
       (<["cloudhandler" := cloudhandler]>
          (<["uds" := user_data_store]>
             (<["ib" := main_info_broker]> (config ∪ base))))).

Definition cri_create_infrastructure (infra_id : pyval) : Command :=
  CreateInfrastructure infra_id.

Definition cri_create_node (node_description : dict) : Command :=
  CreateNode node_description.

Definition cri_drop_node (node_id : pyval) : Command :=
  DropNode node_id.

Definition cri_drop_infrastructure (infra_id : pyval) : Command :=
  DropInfrastructure infra_id.

(** ** Observing an execution *)

(** The events that an execution from [w] to [w'] appended to the trace. *)
Definition new_events {S} (w w' : world S) : list event :=
  drop (length (trace w)) (trace w').

(** What [CreateNode.perform] raises when [_perform_create] raised [ex] on the
    record [instance_data]: the three [except] outcomes in one expression. *)
Definition surfaced (instance_data : ref) (ex : exn) : exn :=
  if is_Exception ex then NodeCreationError (PRef instance_data) ex else ex.

(** The five steps of the node-creation protocol, and their order. *)
Inductive step := Resolve | Register | Provision | Persist | Synchronize.

Definition protocol : list step :=
  [Resolve; Register; Provision; Persist; Synchronize].

Definition step_of (c : call) : option step :=
  match c with
  | resolve_node _ _ => Some Resolve
  | servicecomposer_register_node _ => Some Register
  | cloudhandler_create_node _ => Some Provision
  | uds_register_started_node _ _ _ => Some Persist
  | synch_wait_for_node _ _ => Some Synchronize
  | _ => None
  end.

Inductive step_event :=
  | Started (s : step)
  | Finished (s : step)
  | Failed (s : step).

Definition step_event_of (e : event) : option step_event :=
  match e with
  | Invoke c _ => Started <$> step_of c
  | Return c _ => Finished <$> step_of c
  | Raised c _ => Failed <$> step_of c
  | Drawn _ => None
  end.

Definition protocol_events (evs : list event) : list step_event :=
  omap step_event_of evs.

(** [in_order next es]: the step events [es] run through the steps [next] one
    at a time.  A step starts only when every step before it has finished; a
    step that fails, or that never returns, is the last thing that happens. *)
Inductive in_order : list step → list step_event → Prop :=
  | order_stop next :
      in_order next []
  | order_step s next es :
      in_order next es →
      in_order (s :: next) (Started s :: Finished s :: es)
  | order_failed s next :
      in_order (s :: next) [Started s; Failed s]
  | order_blocked s next :
      in_order (s :: next) [Started s].

(** The record behind [l] as the calls of [evs] that are protocol steps found
    it, oldest first. *)
Definition step_records (l : ref) (evs : list event) : list dict :=
  omap (λ e, match e with
             | Invoke c h =>
                 match step_of c with Some _ => h !! l | None => None end
             | _ => None
             end) evs.

(** A list of records in which each one extends the one before. *)
Fixpoint ascending (ds : list dict) : Prop :=
  match ds with
  | d1 :: (d2 :: _) as ds' => d1 ⊆ d2 ∧ ascending ds'
  | _ => True
  end.

(** The claim that the record grows strictly from every protocol step to
    every later one, as a property of one execution. *)
Definition strictly_growing {S} (respond : call → heap → S → outcome pyval * S)
    (os_urandom : S → Z * S) (nd : dict) (infraprocessor : InfraProcessor)
    (w : world S) : Prop :=
  let w' := (perform respond os_urandom (CreateNode nd) infraprocessor w).2 in
  ∀ i j d1 d2,
    (i < j)%nat →
    step_records (length (store w)) (new_events w w') !! i = Some d1 →
    step_records (length (store w)) (new_events w w') !! j = Some d2 →
    d1 ⊂ d2.

(** [has_field h l k]: the record behind [l] has the field [k]. *)
Definition has_field (h : heap) (l : ref) (k : string) : Prop :=
  ∃ d, h !! l = Some d ∧ is_Some (d !! k).

(** The resolver has returned. *)
Definition resolved (evs : list event) : Prop :=
  ∃ node_id node_description v,
    Return (resolve_node node_id node_description) v ∈ evs.

(** The contract of the resolver: the definition it returns is a
    dictionary that includes [backend_id]. *)
Definition resolver_contract {S}
    (respond : call → heap → S → outcome pyval * S) : Prop :=
  ∀ node_id node_description h s v s',
    respond (resolve_node node_id node_description) h s = (Ok v, s') →
    ∃ d, v = PDict d ∧ is_Some (d !! "backend_id").

(** The calls made in [evs], oldest first. *)
Definition invoked (evs : list event) : list call :=
  omap (λ e, match e with Invoke c _ => Some c | _ => None end) evs.

(** The calls that create a node, as opposed to those that tear down a node
    or handle an infrastructure. *)
Definition creates (c : call) : bool :=
  match c with
  | resolve_node _ _
  | servicecomposer_register_node _
  | cloudhandler_create_node _
  | uds_register_started_node _ _ _
  | ib_get _ _
  | synch_wait_for_node _ _ => true
  | _ => false
  end.

(** A resolved definition from which [backend_id] cannot be read, and the
    exception that the subscript raises on it. *)
Definition lacks_backend_id (v : pyval) : Prop :=
  match v with
  | PDict d => d !! "backend_id" = None
  | PRef _ => False
  | _ => True
  end.

Definition subscript_error (v : pyval) (k : string) : exn :=
  match v with
  | PDict _ | PRef _ => KeyError k
  | _ => TypeError
  end.

(** The UUIDs generated in [evs]. *)
Definition drawn (evs : list event) : list Z :=
  omap (λ e, match e with Drawn u => Some u | _ => None end) evs.

Definition instance_data_fields : gset string :=
  {[ "node_id"; "user_id"; "node_description";
     "resolved_node_definition"; "backend_id"; "instance_id" ]}.

(** [node_id_of h o]: the [node_id] of the record that [o] returns. *)
Definition node_id_of (h : heap) (o : outcome pyval) : option pyval :=
  match o with
  | Ok (PRef l) => d ← h !! l; d !! "node_id"
  | _ => None
  end.

(** The [node_id]s of the records that the outcomes [os] return. *)
Definition returned_node_ids (h : heap) (os : list (outcome pyval)) : list pyval :=
  omap (node_id_of h) os.

Definition returned (o : outcome pyval) : bool :=
  match o with Ok _ => true | _ => false end.

(** The claim that the records returned by the invocations for [nds], run
    one after the other from [w], have pairwise distinct [node_id]s. *)
Definition distinct_node_ids {S} (respond : call → heap → S → outcome pyval * S)
    (os_urandom : S → Z * S) (nds : list dict) (infraprocessor : InfraProcessor)
    (w : world S) : Prop :=
  let run := perform_each respond os_urandom nds infraprocessor w in
  NoDup (returned_node_ids (store run.2) run.1).

(** The digits of a dashed UUID string. *)
Definition undashed (s : list ascii) : list ascii :=
  take 8 s ++ take 4 (drop 9 s) ++ take 4 (drop 14 s) ++
  take 4 (drop 19 s) ++ drop 24 s.

(** [fits z]: [z] is a 128-bit unsigned integer. *)
Definition fits (z : Z) : Prop := 0 ≤ z ∧ Z.log2 z < 128.

(** The six bits that [uuid4] overwrites (two of the variant, four of the
    version), and what it writes there. *)
Definition fixed_bits : Z := Z.lor (Z.shiftl 0xc000 48) (Z.shiftl 0xf000 64).

Definition fixed_values : Z := Z.lor (Z.shiftl 0x8000 48) (Z.shiftl 4 76).

(** The 122 bits of the 16 random bytes that [uuid4] keeps. *)
Definition free_bits (random : Z) : Z :=
  Z.land (random mod 2 ^ 128) (Z.lnot fixed_bits).

(** [wp m Q w]: running [m] in [w] ends in an outcome and a world that
    satisfy [Q].  [M] is a type of total functions, so every run ends in one
    of the three outcomes. *)
Definition wp {S A} (m : M S A) (Q : outcome A → world S → Prop)
    (w : world S) : Prop :=
  Q (m w).1 (m w).2.

(** ** A concrete environment: scripted collaborators *)

Module Scenario.

(** What each collaborator answers when nothing goes wrong. *)
Definition answer (c : call) : outcome pyval :=
  match c with
  | resolve_node _ _ =>
      Ok (PDict (<["backend_id" := PStr "b1"]> (<["image" := PStr "img"]> ∅)))
  | cloudhandler_create_node _ => Ok (PStr "vm-42")
  | _ => Ok PNone
  end.

(** Collaborators that answer as above, except where [fault] says
    otherwise.  The state is the counter of the entropy source. *)
Definition respond (fault : call → option (outcome pyval))
    (c : call) (h : heap) (s : Z) : outcome pyval * Z :=
  (default (answer c) (fault c), s).

Definition no_fault (c : call) : option (outcome pyval) := None.

Definition resolver_down (c : call) : option (outcome pyval) :=
  match c with
  | resolve_node _ _ => Some (Raise (RuntimeError "unknown backend"))
  | _ => None
  end.

Definition quota_exceeded (c : call) : option (outcome pyval) :=
  match c with
  | cloudhandler_create_node _ => Some (Raise (RuntimeError "quota exceeded"))
  | _ => None
  end.

Definition interrupted (c : call) : option (outcome pyval) :=
  match c with
  | synch_wait_for_node _ _ => Some (Raise KeyboardInterrupt)
  | _ => None
  end.

Definition composer_down (c : call) : option (outcome pyval) :=
  match c with
  | servicecomposer_drop_node _ => Some (Raise (RuntimeError "unreachable"))
  | _ => None
  end.

Definition broker_down (c : call) : option (outcome pyval) :=
  match c with
  | ib_get _ _ => Some (Raise (RuntimeError "no such key"))
  | _ => None
  end.

Definition exit_requested (c : call) : option (outcome pyval) :=
  match c with
  | servicecomposer_register_node _ => Some (Raise SystemExit)
  | _ => None
  end.

Definition never_ready (c : call) : option (outcome pyval) :=
  match c with
  | synch_wait_for_node _ _ => Some Diverges
  | _ => None
  end.

Definition empty_resolution (c : call) : option (outcome pyval) :=
  match c with
  | resolve_node _ _ => Some (Ok (PDict ∅))
  | _ => None
  end.

Definition os_urandom (s : Z) : Z * Z :=
  (s * 0x9e3779b97f4a7c15f39cc0605cedc835, s + 1).

(** An entropy source that hands out the same 16 bytes every time. *)
Definition repeating_urandom (s : Z) : Z * Z := (0, s).

Definition node_description : dict :=
  <["user_id" := PStr "u1"]>
    (<["infra_id" := PStr "i1"]> (<["name" := PStr "n1"]> ∅)).

Definition anonymous : dict :=
  <["infra_id" := PStr "i1"]> (<["name" := PStr "n1"]> ∅).

Definition nameless : dict :=
  <["user_id" := PStr "u1"]> (<["infra_id" := PStr "i1"]> ∅).

Definition resolved_node_def : pyval :=
  PDict (<["backend_id" := PStr "b1"]> (<["image" := PStr "img"]> ∅)).

Definition infraprocessor : InfraProcessor := {| poll_delay := 10 |}.

Definition start : world Z := World [] [] 1.

(** [CreateNode(node_description).perform(infraprocessor)] under [fault]. *)
Definition create (fault : call → option (outcome pyval)) :
    outcome pyval * world Z :=
  perform (respond fault) os_urandom (CreateNode node_description)
          infraprocessor start.

(** [DropNode(instance_data).perform(infraprocessor)] under [fault]. *)
Definition drop (fault : call → option (outcome pyval))
    (instance_data : pyval) (w : world Z) : outcome pyval * world Z :=
  perform (respond fault) os_urandom (DropNode instance_data) infraprocessor w.

End Scenario.

(** ** Stores and traces *)

Lemma alter_last {A} (f : A → A) (h : list A) (d : A) :
  alter f (length h) (h ++ [d]) = h ++ [f d].
Proof. rewrite <- (Nat.add_0_r (length h)). by rewrite alter_app_r. Qed.

Lemma lookup_last {A} (h : list A) (d : A) : (h ++ [d]) !! length h = Some d.
Proof. by apply list_lookup_middle. Qed.

Lemma new_events_app {S} (h h' : heap) (tr evs : list event) (s s' : S) :
  new_events (World h tr s) (World h' (tr ++ evs) s') = evs.
Proof. unfold new_events. cbn [trace]. apply drop_app_length. Qed.

Lemma drawn_app evs1 evs2 : drawn (evs1 ++ evs2) = drawn evs1 ++ drawn evs2.
Proof. apply omap_app. Qed.

Lemma has_field_last (h : heap) (d : dict) (k : string) :
  has_field (h ++ [d]) (length h) k ↔ is_Some (d !! k).
Proof.
  unfold has_field. rewrite lookup_last. split.
  - by intros (d' & [= <-] & Hk).
  - intros Hk. by exists d.
Qed.

Lemma has_field_fresh (h : heap) (k : string) : ¬ has_field h (length h) k.
Proof. intros (d & Hd & _). apply lookup_lt_Some in Hd. lia. Qed.

Lemma resolved_here node_id node_description v evs :
  resolved (Return (resolve_node node_id node_description) v :: evs).
Proof. do 3 eexists. apply list_elem_of_here. Qed.

Lemma resolved_further e evs : resolved evs → resolved (e :: evs).
Proof.
  intros (? & ? & ? & Hin). do 3 eexists. by apply list_elem_of_further.
Qed.

(** ** Records that grow *)

Lemma grows_by (a b : dict) (k : string) :
  a ⊆ b → a !! k = None → is_Some (b !! k) → a ⊂ b.
Proof.
  intros Hab Ha [v Hb]. split; [done|]. intros Hba.
  apply (lookup_weaken _ _ _ _ Hb) in Hba. congruence.
Qed.

Lemma ascending_head d ds d' : ascending (d :: ds) → d' ∈ ds → d ⊆ d'.
Proof.
  revert d. induction ds as [|d2 ds IH]; intros d Hasc Hin.
  - by apply elem_of_nil in Hin.
  - destruct Hasc as [Hd Hasc]. apply elem_of_cons in Hin as [->|Hin]; [done|].
    etrans; [exact Hd|]. by apply IH.
Qed.

Lemma ascending_lookup ds i j d1 d2 :
  ascending ds → (i ≤ j)%nat → ds !! i = Some d1 → ds !! j = Some d2 → d1 ⊆ d2.
Proof.
  revert i j. induction ds as [|d ds IH]; intros i j Hasc Hij Hi Hj; [done|].
  destruct i as [|i], j as [|j]; simplify_eq/=; [done| |lia|].
  - eapply ascending_head; [done|]. by eapply list_elem_of_lookup_2.
  - eapply (IH i j); [|lia|done..]. destruct ds; [done|]. by destruct Hasc.
Qed.

(** ** UUID strings *)

Lemma fits_lt z : fits z → 0 ≤ z < 2 ^ 128.
Proof.
  intros [Hz Hlog]. split; [done|].
  destruct (decide (z = 0)) as [->|Hne]; [done|].
  apply Z.log2_lt_pow2; lia.
Qed.

Lemma lt_fits z : 0 ≤ z < 2 ^ 128 → fits z.
Proof.
  intros [Hz Hlt]. split; [done|].
  destruct (decide (z = 0)) as [->|Hne]; [done|].
  apply Z.log2_lt_pow2; lia.
Qed.

Lemma fits_lor a b : fits a → fits b → fits (Z.lor a b).
Proof.
  intros [Ha Hla] [Hb Hlb]. split.
  - by apply Z.lor_nonneg.
  - rewrite Z.log2_lor by done. lia.
Qed.

Lemma fits_clear a m : fits a → 0 ≤ m → fits (Z.land a (Z.lnot m)).
Proof.
  intros [Ha Hla] Hm. rewrite <- Z.ldiff_land.
  assert (0 ≤ Z.ldiff a m) as Hd by (apply Z.ldiff_nonneg; auto).
  assert (0 ≤ Z.land a m) as Hl by (apply Z.land_nonneg; auto).
  split; [done|].
  pose proof (Z.log2_lor _ _ Hd Hl) as Hmax.
  rewrite Z.lor_ldiff_and in Hmax. lia.
Qed.

Lemma uuid4_of_fits r : fits (uuid.uuid4_of r).
Proof.
  unfold uuid.uuid4_of, uuid.set_version.
  assert (fits (r mod 2 ^ 128)) as Hr by (apply lt_fits, Z.mod_pos_bound; lia).
  apply fits_lor; [|by apply lt_fits].
  apply fits_clear; [|done].
  apply fits_lor; [|by apply lt_fits].
  by apply fits_clear.
Qed.

(** [uuid4] keeps the free bits of the random value and writes the fixed
    ones. *)
Lemma uuid4_of_split r :
  uuid.uuid4_of r = Z.lor (free_bits r) fixed_values.
Proof.
  unfold uuid.uuid4_of, uuid.set_version, free_bits, fixed_bits, fixed_values.
  set (x := r mod 2 ^ 128).
  set (m1 := Z.shiftl 49152 48). set (k1 := Z.shiftl 32768 48).
  set (m2 := Z.shiftl 61440 64). set (k2 := Z.shiftl 4 76).
  assert (Z.land k1 m2 = 0) as Hk by reflexivity.
  apply Z.bits_inj'. intros n Hn.
  apply (f_equal (λ z, Z.testbit z n)) in Hk.
  rewrite Z.land_spec, Z.bits_0 in Hk.
  rewrite !Z.lor_spec, !Z.land_spec, !Z.lnot_spec, !Z.lor_spec by done.
  rewrite Z.land_spec, Z.lnot_spec by done.
  destruct (Z.testbit x n), (Z.testbit m1 n), (Z.testbit k1 n),
    (Z.testbit m2 n), (Z.testbit k2 n); simpl in *; congruence.
Qed.

Lemma free_bits_of_uuid4 r :
  free_bits r = Z.ldiff (uuid.uuid4_of r) fixed_values.
Proof.
  rewrite uuid4_of_split. unfold free_bits.
  set (x := r mod 2 ^ 128).
  assert (Z.land fixed_values (Z.lnot fixed_bits) = 0) as Hk by reflexivity.
  apply Z.bits_inj'. intros n Hn.
  apply (f_equal (λ z, Z.testbit z n)) in Hk.
  rewrite Z.land_spec, Z.bits_0 in Hk.
  rewrite Z.ldiff_spec, Z.lor_spec, !Z.land_spec.
  destruct (Z.testbit x n), (Z.testbit (Z.lnot fixed_bits) n),
    (Z.testbit fixed_values n); simpl in *; congruence.
Qed.

(** Two random values give the same UUID exactly when they agree on the
    free bits. *)
Lemma uuid4_of_collide r1 r2 :
  uuid.uuid4_of r1 = uuid.uuid4_of r2 ↔ free_bits r1 = free_bits r2.
Proof.
  split; intros Heq.
  - by rewrite !free_bits_of_uuid4, Heq.
  - by rewrite !uuid4_of_split, Heq.
Qed.

Lemma hex_length k n : length (uuid.hex k n) = k.
Proof.
  revert n. induction k as [|k IH]; intros n; [done|].
  cbn [uuid.hex]. rewrite length_app, IH. cbn. lia.
Qed.

Lemma hex_digit_inj a b :
  0 ≤ a < 16 → 0 ≤ b < 16 → uuid.hex_digit a = uuid.hex_digit b → a = b.
Proof.
  intros Ha Hb. unfold uuid.hex_digit.
  assert (∃ i, (i < 16)%nat ∧ a = Z.of_nat i) as (i & Hi & ->)
    by (exists (Z.to_nat a); lia).
  assert (∃ j, (j < 16)%nat ∧ b = Z.of_nat j) as (j & Hj & ->)
    by (exists (Z.to_nat b); lia).
  rewrite !Nat2Z.id. intros Heq. f_equal.
  do 16 (destruct i as [|i];
         [do 16 (destruct j as [|j]; [done || discriminate Heq|]); lia|]).
  lia.
Qed.

Lemma hex_inj k a b :
  uuid.hex k a = uuid.hex k b → a mod 16 ^ Z.of_nat k = b mod 16 ^ Z.of_nat k.
Proof.
  revert a b. induction k as [|k IH]; intros a b Heq.
  - by rewrite !Z.mod_1_r.
  - cbn [uuid.hex] in Heq. apply app_inj_tail in Heq as [Hhi Hlo].
    apply IH in Hhi. apply hex_digit_inj in Hlo; [|by apply Z.mod_pos_bound..].
    rewrite Nat2Z.inj_succ, Z.pow_succ_r by lia.
    rewrite !(Z.rem_mul_r _ 16) by lia. by rewrite Hhi, Hlo.
Qed.

Lemma undashed_dashed h : length h = 32%nat → undashed (uuid.dashed h) = h.
Proof.
  intros Hlen.
  do 32 (destruct h as [|? h]; [discriminate Hlen|]).
  by destruct h.
Qed.

Lemma str_inj a b : fits a → fits b → uuid.str a = uuid.str b → a = b.
Proof.
  intros Ha%fits_lt Hb%fits_lt Heq. unfold uuid.str in Heq.
  apply (f_equal list_ascii_of_string) in Heq.
  rewrite !list_ascii_of_string_of_list_ascii in Heq.
  apply (f_equal undashed) in Heq.
  rewrite !undashed_dashed in Heq by apply hex_length.
  apply hex_inj in Heq. change (16 ^ Z.of_nat 32) with (2 ^ 128) in Heq.
  by rewrite !Z.mod_small in Heq.
Qed.

Lemma str_length u : String.length (uuid.str u) = 36%nat.
Proof.
  unfold uuid.str.
  pose proof (hex_length 32 u) as Hlen.
  destruct (uuid.hex 32 u) as [|? h]; [discriminate Hlen|].
  do 31 (destruct h as [|? h]; [discriminate Hlen|]).
  by destruct h.
Qed.

(** ** Rules for running the commands symbolically *)

Section Logic.

Context {S : Type}.
Variable respond : call → heap → S → outcome pyval * S.
Variable os_urandom : S → Z * S.

Lemma wp_elim {A} (m : M S A) w (Q : outcome A → world S → Prop) :
  wp m Q w → ∀ o w', m w = (o, w') → Q o w'.
Proof. unfold wp. intros H o w' E. by rewrite E in H. Qed.

Lemma wp_start {A} (m : M S A) Q h tr s :
  wp m Q (World h (tr ++ []) s) → wp m Q (World h tr s).
Proof. by rewrite app_nil_r. Qed.

Lemma wp_ret {A} (a : A) Q (w : world S) : Q (Ok a) w → wp (ret a) Q w.
Proof. done. Qed.

Lemma wp_raise {A} e (Q : outcome A → world S → Prop) w :
  Q (Raise e) w → wp (raise e) Q w.
Proof. done. Qed.

Lemma wp_bind {A B} (m : M S A) (k : A → M S B) Q w :
  wp m (λ o w', match o with
                | Ok a => wp (k a) Q w'
                | Raise e => Q (Raise e) w'
                | Diverges => Q Diverges w'
                end) w →
  wp (m ≫= k) Q w.
Proof.
  unfold wp. cbv [mbind M_bind bind]. by destruct (m w) as [[a|e|] w'].
Qed.

Lemma wp_try {A B} (body : M S A) (handler : exn → M S B)
    (orelse : A → M S B) Q w :
  wp body (λ o w', match o with
                   | Ok a => wp (orelse a) Q w'
                   | Raise e => wp (handler e) Q w'
                   | Diverges => Q Diverges w'
                   end) w →
  wp (try_except_else body handler orelse) Q w.
Proof.
  unfold wp, try_except_else. by destruct (body w) as [[a|e|] w'].
Qed.

(** The [try] statement of [CreateNode.perform]: its [except] clauses, taken
    together, raise [surfaced l ex]. *)
Lemma wp_try_create {A} (body : M S A) (l : ref) (orelse : A → M S pyval) Q w :
  wp body (λ o w', match o with
                   | Ok a => wp (orelse a) Q w'
                   | Raise ex => Q (Raise (surfaced l ex)) w'
                   | Diverges => Q Diverges w'
                   end) w →
  wp (try_except_else body
        (λ ex, match ex with
               | KeyboardInterrupt => raise KeyboardInterrupt
               | _ =>
                   if is_Exception ex
                   then raise (NodeCreationError (PRef l) ex)
                   else raise ex
               end) orelse) Q w.
Proof.
  intros H. apply wp_try. revert H. unfold wp.
  destruct (body w) as [[a|ex|] w']; try done. by destruct ex.
Qed.

Lemma wp_invoke c Q h tr evs s :
  (∀ o s', respond c h s = (o, s') →
     match o with
     | Ok v => Q (Ok v) (World h (tr ++ evs ++ [Invoke c h; Return c v]) s')
     | Raise e => Q (Raise e) (World h (tr ++ evs ++ [Invoke c h; Raised c e]) s')
     | Diverges => Q Diverges (World h (tr ++ evs ++ [Invoke c h]) s')
     end) →
  wp (invoke respond c) Q (World h (tr ++ evs) s).
Proof.
  intros H. unfold wp, invoke, log. cbn [store trace ext].
  specialize (H (respond c h s).1 (respond c h s).2).
  destruct (respond c h s) as [[v|e|] s']; cbn [fst snd] in *;
    rewrite <- ?app_assoc; by apply H.
Qed.

Lemma wp_uuid4 Q h tr evs s :
  (∀ r s', os_urandom s = (r, s') →
     Q (Ok (uuid.uuid4_of r))
       (World h (tr ++ evs ++ [Drawn (uuid.uuid4_of r)]) s')) →
  wp (uuid_uuid4 os_urandom) Q (World h (tr ++ evs) s).
Proof.
  intros H. unfold wp, uuid_uuid4, log. cbn [store trace ext].
  destruct (os_urandom s) as [r s'] eqn:E. cbn [fst snd].
  rewrite <- app_assoc. by apply H.
Qed.

Lemma wp_getitem o k Q h tr (s : S) :
  Q (subscript h o k) (World h tr s) → wp (getitem o k) Q (World h tr s).
Proof. done. Qed.

Lemma wp_setitem l k v Q h tr (s : S) :
  Q (Ok tt) (World (alter (insert k v) l h) tr s) →
  wp (setitem l k v) Q (World h tr s).
Proof. done. Qed.

Lemma wp_new_dict d Q h tr (s : S) :
  Q (Ok (length h)) (World (h ++ [d]) tr s) →
  wp (new_dict d) Q (World h tr s).
Proof. done. Qed.

End Logic.

(** One step of symbolic execution. *)
Ltac wp_step :=
  lazymatch goal with
  | |- wp (mbind _ _) _ _ => apply wp_bind
  | |- wp (ret _) _ _ => apply wp_ret
  | |- wp (mret _) _ _ => apply wp_ret
  | |- wp (raise _) _ _ => apply wp_raise
  | |- wp (try_except_else _ _ _) _ _ =>
      first [apply wp_try_create | apply wp_try]
  | |- wp (invoke _ _) _ _ =>
      let s := fresh "s" in
      let H := fresh "Hcall" in
      apply wp_invoke; intros [?v|?e|] s H; cbn [app]
  | |- wp (uuid_uuid4 _) _ _ =>
      let r := fresh "r" in
      let s := fresh "s" in
      let H := fresh "Hrand" in
      apply wp_uuid4; intros r s H; cbn [app]
  | |- wp (getitem ?o _) _ _ =>
      apply wp_getitem; try (is_var o; destruct o);
      cbn [subscript]; rewrite ?lookup_last
  | |- wp (setitem _ _ _) _ _ => apply wp_setitem; rewrite ?alter_last
  | |- wp (new_dict _) _ _ => apply wp_new_dict
  | |- wp (CreateNode__perform_create _ _ _ _) _ _ =>
      unfold CreateNode__perform_create
  | |- match ?m with Ok _ => _ | Raise _ => _ | Diverges => _ end =>
      lazymatch m with
      | match (<[?k:=_]> _) !! ?k with _ => _ end => rewrite lookup_insert_eq
      | match ?x with Some _ => _ | None => _ end =>
          let E := fresh "Hget" in destruct x eqn:E; try congruence
      end
  end; cbv beta iota.

(** Run [perform] symbolically from the goal
    [∀ o w', perform ... w = (o, w') → ...]: one goal per way it can end,
    with the store, the new events and the outcome written out. *)
Ltac wp_run :=
  lazymatch goal with
  | |- ∀ o w', ?m ?w = (o, w') → @?Q o w' =>
      apply (wp_elim m w Q);
      let h := fresh "h" in
      let tr := fresh "tr" in
      let s := fresh "s" in
      destruct w as [h tr s];
      apply wp_start;
      cbv [perform CreateNode_perform CreateNode_instance_data DropNode_perform
           CreateInfrastructure_perform DropInfrastructure_perform];
      repeat wp_step;
      rewrite ?new_events_app; cbn [store trace ext]
  end.

(** Membership in a list that is written out. *)
Ltac elem_of_list :=
  repeat first [apply list_elem_of_here | apply list_elem_of_further].

Ltac elem_cases H :=
  repeat (apply elem_of_cons in H as [H|H]; [try discriminate H|]);
  try (apply elem_of_nil in H; destruct H).

Ltac index_cases i Hi :=
  simpl in Hi;
  first [ discriminate Hi
        | destruct i as [|i];
          [simpl in Hi; try discriminate Hi | index_cases i Hi] ].

(** [d ⊆ <[k1:=v1]> (... (<[kn:=vn]> d))] for keys that [d] does not have. *)
Ltac extends :=
  repeat first
    [ reflexivity
    | apply insert_subseteq_r; [by simplify_map_eq|] ].

(** ** The claims *)

Section Properties.

Context {S : Type}.
Variable respond : call → heap → S → outcome pyval * S.
Variable os_urandom : S → Z * S.

Ltac forget_calls :=
  repeat match goal with
  | H : respond _ _ _ = _ |- _ => clear H
  | H : os_urandom _ = _ |- _ => clear H
  end.

Ltac use_contract Hc :=
  repeat match goal with
  | H : respond (resolve_node _ _) _ _ = (Ok _, _) |- _ =>
      let d := fresh "d" in
      destruct (Hc _ _ _ _ _ _ H) as (d & ? & [? ?]); clear H; simplify_eq
  end.

(** C1: in every execution of [CreateNode.perform] the protocol steps are
    invoked in the order resolve, register_node, create_node,
    register_started_node, readiness wait.  A step is invoked only after the
    step before it has returned; after a step that raised, or that never
    returned, no step is invoked.  When [perform] returns, all five steps
    have been invoked and have returned. *)
Theorem protocol_steps_in_order nd ip w o w' :
  perform respond os_urandom (CreateNode nd) ip w = (o, w') →
  in_order protocol (protocol_events (new_events w w')) ∧
  (returned o →
   protocol_events (new_events w w') =
     [Started Resolve; Finished Resolve; Started Register; Finished Register;
      Started Provision; Finished Provision; Started Persist; Finished Persist;
      Started Synchronize; Finished Synchronize]).
Proof.
  revert o w'. wp_run; forget_calls.
  all: split; [cbn; unfold protocol; repeat constructor | by intros []].
Qed.

(** C2: a failure (an exception that derives from [Exception]) raised inside
    [_perform_create] makes [perform] raise a [NodeCreationError] that holds
    the reference to the record, in the store as the failure left it, and
    the exception itself.  When the failure is a collaborator's, the record
    carried is the record that the failing call was given.  The other three
    commands raise exactly what their collaborator raised. *)
Theorem failures_are_wrapped :
  (∀ nd ip w l w1 ex w',
     CreateNode_instance_data os_urandom nd w = (Ok l, w1) →
     CreateNode__perform_create respond nd ip l w1 = (Raise ex, w') →
     is_Exception ex = true →
     perform respond os_urandom (CreateNode nd) ip w =
       (Raise (NodeCreationError (PRef l) ex), w')) ∧
  (∀ nd ip w o w' c e,
     perform respond os_urandom (CreateNode nd) ip w = (o, w') →
     Raised c e ∈ new_events w w' →
     is_Exception e = true →
     o = Raise (NodeCreationError (PRef (length (store w))) e) ∧
     ∃ h d, Invoke c h ∈ new_events w w' ∧
            h !! length (store w) = Some d ∧
            store w' !! length (store w) = Some d) ∧
  (∀ cmd ip w e w',
     (∀ nd, cmd ≠ CreateNode nd) →
     perform respond os_urandom cmd ip w = (Raise e, w') →
     ∃ c, last (new_events w w') = Some (Raised c e)).
Proof.
  split; [|split].
  - intros nd ip w l w1 ex w' Hinit Hfail Hex.
    unfold perform, CreateNode_perform. cbv [mbind M_bind bind].
    rewrite Hinit. unfold try_except_else. rewrite Hfail.
    by destruct ex.
  - intros nd ip w o w' c e Hrun. revert o w' Hrun. wp_run; forget_calls.
    all: intros Hin Hex; elem_cases Hin; simplify_eq.
    all: unfold surfaced; rewrite Hex; split; [done|].
    all: do 2 eexists; split; [elem_of_list|].
    all: split; apply lookup_last.
  - intros cmd ip w e w' Hcmd Hrun.
    remember (Raise e) as o eqn:Ho. revert o w' Hrun Ho.
    destruct cmd as [infra_id|nd|instance_data|infra_id];
      [|by destruct (Hcmd nd)|..]; wp_run.
    all: intros Ho; simplify_eq; by eexists.
Qed.

(** C3: when a collaborator call of [CreateNode.perform] raises
    [KeyboardInterrupt], the readiness wait included, [perform] raises
    [KeyboardInterrupt] itself; and the cause held by a [NodeCreationError]
    that [perform] raises is never [KeyboardInterrupt]. *)
Theorem cancellation_propagates nd ip w o w' :
  perform respond os_urandom (CreateNode nd) ip w = (o, w') →
  (∀ c, Raised c KeyboardInterrupt ∈ new_events w w' →
        o = Raise KeyboardInterrupt) ∧
  (∀ x cause, o = Raise (NodeCreationError x cause) →
              cause ≠ KeyboardInterrupt).
Proof.
  revert o w'. wp_run; forget_calls.
  all: split; [intros c Hin; elem_cases Hin; by simplify_eq |].
  all: intros x cause Hx; try discriminate Hx.
  all: unfold surfaced in Hx;
    match type of Hx with
    | context [is_Exception ?e] => destruct e; simplify_eq/=; done
    end.
Qed.

(** C4: when the resolver fails, the record held by the [NodeCreationError]
    has neither [resolved_node_definition] nor [instance_id]; when the cloud
    handler's [create_node] fails, it has [resolved_node_definition] and
    [backend_id] and no [instance_id]. *)
Theorem partial_record_on_failure nd ip w o w' :
  perform respond os_urandom (CreateNode nd) ip w = (o, w') →
  (∀ node_id node_description e,
     Raised (resolve_node node_id node_description) e ∈ new_events w w' →
     is_Exception e = true →
     ∃ d, o = Raise (NodeCreationError (PRef (length (store w))) e) ∧
          store w' !! length (store w) = Some d ∧
          d !! "resolved_node_definition" = None ∧
          d !! "instance_id" = None) ∧
  (∀ resolved_node_def e,
     Raised (cloudhandler_create_node resolved_node_def) e ∈ new_events w w' →
     is_Exception e = true →
     ∃ d, o = Raise (NodeCreationError (PRef (length (store w))) e) ∧
          store w' !! length (store w) = Some d ∧
          d !! "resolved_node_definition" = Some resolved_node_def ∧
          is_Some (d !! "backend_id") ∧
          d !! "instance_id" = None).
Proof.
  revert o w'. wp_run; forget_calls.
  all: split; [intros ? ? ex Hin Hex | intros ? ex Hin Hex]; elem_cases Hin.
  all: simplify_eq; eexists; unfold surfaced; rewrite Hex.
  all: split; [done|]; split; [apply lookup_last|].
  all: by simplify_map_eq.
Qed.

(** C5: with a resolver that keeps its contract, the record has [backend_id]
    exactly when the resolver has returned: in the store that each call of
    the execution is given, and in the store that the execution leaves
    behind, whether [perform] returns the record or raises with it. *)
Theorem backend_id_iff_resolved nd ip w o w' :
  resolver_contract respond →
  perform respond os_urandom (CreateNode nd) ip w = (o, w') →
  (∀ i c h,
     new_events w w' !! i = Some (Invoke c h) →
     has_field h (length (store w)) "backend_id" ↔
     resolved (take i (new_events w w'))) ∧
  (has_field (store w') (length (store w)) "backend_id" ↔
   resolved (new_events w w')).
Proof.
  intros Hcontract. revert o w'. wp_run; use_contract Hcontract; forget_calls.
  all: split; [intros i c h' Hi; index_cases i Hi; simplify_eq; cbn [take]|].
  all: rewrite ?has_field_last.
  all: try (split;
            [ intros []%has_field_fresh
            | intros (? & ? & ? & Hin); elem_cases Hin ]).
  all: split; intros Hx;
    [ first [ by (repeat first [apply resolved_here | apply resolved_further])
            | exfalso; destruct Hx as [? Hx]; by simplify_map_eq ]
    | first [ by simplify_map_eq
            | exfalso; destruct Hx as (? & ? & ? & Hx); elem_cases Hx ] ].
Qed.

(** C6: [DropNode.perform] calls the cloud handler's [drop_node] first and
    the service composer's [drop_node] only after that call has returned,
    both with the command's [instance_data]; it raises exactly the exception
    that the failing collaborator raised. *)
Theorem drop_node_order instance_data ip w o w' :
  perform respond os_urandom (DropNode instance_data) ip w = (o, w') →
  ∃ h,
    match o with
    | Ok v =>
        v = PNone ∧
        ∃ v1 v2,
          new_events w w' =
            [Invoke (cloudhandler_drop_node instance_data) h;
             Return (cloudhandler_drop_node instance_data) v1;
             Invoke (servicecomposer_drop_node instance_data) h;
             Return (servicecomposer_drop_node instance_data) v2]
    | Raise e =>
        new_events w w' =
          [Invoke (cloudhandler_drop_node instance_data) h;
           Raised (cloudhandler_drop_node instance_data) e] ∨
        ∃ v1,
          new_events w w' =
            [Invoke (cloudhandler_drop_node instance_data) h;
             Return (cloudhandler_drop_node instance_data) v1;
             Invoke (servicecomposer_drop_node instance_data) h;
             Raised (servicecomposer_drop_node instance_data) e]
    | Diverges =>
        new_events w w' =
          [Invoke (cloudhandler_drop_node instance_data) h] ∨
        ∃ v1,
          new_events w w' =
            [Invoke (cloudhandler_drop_node instance_data) h;
             Return (cloudhandler_drop_node instance_data) v1;
             Invoke (servicecomposer_drop_node instance_data) h]
    end.
Proof.
  revert o w'. wp_run; eauto 6.
Qed.

(** What one invocation leaves behind: one UUID, made first and from the
    next value of the entropy source; an extended store; and the new record
    with that UUID as its [node_id]. *)
Lemma CreateNode_perform_summary nd ip w o w' :
  perform respond os_urandom (CreateNode nd) ip w = (o, w') →
  ∃ r evs ds,
    r = (os_urandom (ext w)).1 ∧
    trace w' = trace w ++ evs ∧
    head evs = Some (Drawn (uuid.uuid4_of r)) ∧
    drawn evs = [uuid.uuid4_of r] ∧
    store w' = store w ++ ds ∧
    (∀ c h d, Invoke c h ∈ evs → h !! length (store w) = Some d →
              d !! "node_id" = Some (PStr (uuid.str (uuid.uuid4_of r)))) ∧
    (∀ v, o = Ok v →
          v = PRef (length (store w)) ∧
          ∃ d, ds = [d] ∧
               d !! "node_id" = Some (PStr (uuid.str (uuid.uuid4_of r)))).
Proof.
  revert o w'. wp_run.
  all: exists r; eexists; eexists.
  all: split; [by rewrite Hrand|]; forget_calls.
  all: split; [reflexivity|]; split; [reflexivity|]; split; [reflexivity|].
  all: split; [first [reflexivity | symmetry; apply app_nil_r]|].
  all: split; [|intros ? [= <-] || intros ? [=]].
  all: try (intros c h' d' Hin Hd'; elem_cases Hin; simplify_eq;
            rewrite lookup_last in Hd'; simplify_eq; by simplify_map_eq).
  all: split; [done|]; eexists; split; [done|]; by simplify_map_eq.
Qed.

Lemma perform_each_summary nds ip w os w' :
  perform_each respond os_urandom nds ip w = (os, w') →
  ∃ evs ds,
    trace w' = trace w ++ evs ∧
    store w' = store w ++ ds ∧
    Forall fits (drawn evs) ∧
    length (returned_node_ids (store w') os) = length (filter returned os) ∧
    returned_node_ids (store w') os `sublist_of`
      ((λ u, PStr (uuid.str u)) <$> drawn evs).
Proof.
  revert w os w'. induction nds as [|nd nds IH]; intros w os w' Hrun.
  - injection Hrun as <- <-. exists [], []. rewrite !app_nil_r. by repeat split.
  - cbn [perform_each] in Hrun.
    destruct (perform respond os_urandom (CreateNode nd) ip w)
      as [o w1] eqn:Hone.
    destruct (CreateNode_perform_summary _ _ _ _ _ Hone)
      as (r & evs1 & ds1 & _ & Htr1 & _ & Hdrawn1 & Hst1 & _ & Hok).
    destruct o as [v|e|].
    + destruct (perform_each respond os_urandom nds ip w1) as [tl w2] eqn:Htl.
      injection Hrun as <- <-.
      destruct (IH _ _ _ Htl) as (evs2 & ds2 & Htr2 & Hst2 & Hfit & Hlen & Hsub).
      destruct (Hok v eq_refl) as (-> & d & -> & Hid).
      exists (evs1 ++ evs2), ([d] ++ ds2).
      rewrite Htr2, Htr1, <- !app_assoc, drawn_app, Hdrawn1.
      split; [done|]. split; [by rewrite Hst2, Hst1, <- app_assoc|]. split.
      { apply Forall_app; split; [|done].
        apply Forall_singleton, uuid4_of_fits. }
      assert (node_id_of (store w2) (Ok (PRef (length (store w)))) =
              Some (PStr (uuid.str (uuid.uuid4_of r)))) as Hnid.
      { cbn [node_id_of]. rewrite Hst2, Hst1, <- app_assoc. cbn [app].
        rewrite (list_lookup_middle _ _ d) by done. exact Hid. }
      unfold returned_node_ids in *. cbn [omap list_omap]. rewrite Hnid.
      rewrite filter_cons_True by done. cbn [length app fmap list_fmap].
      split; [by rewrite Hlen|]. by apply sublist_skip.
    + destruct (perform_each respond os_urandom nds ip w1) as [tl w2] eqn:Htl.
      injection Hrun as <- <-.
      destruct (IH _ _ _ Htl) as (evs2 & ds2 & Htr2 & Hst2 & Hfit & Hlen & Hsub).
      exists (evs1 ++ evs2), (ds1 ++ ds2).
      rewrite Htr2, Htr1, <- !app_assoc, drawn_app, Hdrawn1.
      split; [done|]. split; [by rewrite Hst2, Hst1, <- app_assoc|]. split.
      { apply Forall_app; split; [|done].
        apply Forall_singleton, uuid4_of_fits. }
      unfold returned_node_ids in *.
      cbn [omap list_omap node_id_of app fmap list_fmap].
      rewrite filter_cons_False by (by intros []).
      split; [exact Hlen|]. by apply sublist_cons.
    + injection Hrun as <- <-.
      exists evs1, ds1. rewrite Hdrawn1.
      split; [done|]; split; [done|]. split.
      { apply Forall_singleton, uuid4_of_fits. }
      split; [done|]. apply sublist_nil_l.
Qed.

(** C7 (as amended): every [CreateNode] invocation first generates a UUID,
    from the next 16 bytes of the entropy source, and its string is the
    [node_id] of the record from then on.  The [node_id]s that two
    invocations return are distinct exactly when the random values they drew
    differ outside the six bits that [uuid4] overwrites.  Over any number of
    invocations, every record returned has a [node_id]; each is a string of
    36 characters generated in one of the invocations; and the [node_id]s
    are pairwise distinct whenever the UUIDs generated are. *)
Theorem node_ids_fresh :
  (∀ nd ip w o w',
     perform respond os_urandom (CreateNode nd) ip w = (o, w') →
     let u := uuid.uuid4_of (os_urandom (ext w)).1 in
     head (new_events w w') = Some (Drawn u) ∧
     (∀ c h d, Invoke c h ∈ new_events w w' →
               h !! length (store w) = Some d →
               d !! "node_id" = Some (PStr (uuid.str u))) ∧
     (returned o →
      node_id_of (store w') o = Some (PStr (uuid.str u)))) ∧
  (∀ nd1 nd2 ip1 ip2 w1 w2 o1 o2 w1' w2',
     perform respond os_urandom (CreateNode nd1) ip1 w1 = (o1, w1') →
     perform respond os_urandom (CreateNode nd2) ip2 w2 = (o2, w2') →
     returned o1 → returned o2 →
     node_id_of (store w1') o1 = node_id_of (store w2') o2 ↔
     free_bits (os_urandom (ext w1)).1 = free_bits (os_urandom (ext w2)).1) ∧
  (∀ nds ip w os w',
     perform_each respond os_urandom nds ip w = (os, w') →
     length (returned_node_ids (store w') os) = length (filter returned os) ∧
     Forall (λ v, ∃ s, v = PStr s ∧ String.length s = 36%nat)
            (returned_node_ids (store w') os) ∧
     returned_node_ids (store w') os `sublist_of`
       ((λ u, PStr (uuid.str u)) <$> drawn (new_events w w')) ∧
     (NoDup (drawn (new_events w w')) →
      NoDup (returned_node_ids (store w') os))).
Proof.
  assert (∀ nd ip w o w',
            perform respond os_urandom (CreateNode nd) ip w = (o, w') →
            returned o →
            node_id_of (store w') o =
              Some (PStr (uuid.str (uuid.uuid4_of (os_urandom (ext w)).1))))
    as Hreturned.
  { intros nd ip w o w' Hrun Hret.
    destruct (CreateNode_perform_summary _ _ _ _ _ Hrun)
      as (r & evs & ds & -> & _ & _ & _ & Hst & _ & Hok).
    destruct o as [v| |]; [|destruct Hret..].
    destruct (Hok v eq_refl) as (-> & d & -> & Hid).
    cbn [node_id_of]. by rewrite Hst, lookup_last. }
  split; [|split].
  - intros nd ip w o w' Hrun u.
    destruct (CreateNode_perform_summary _ _ _ _ _ Hrun)
      as (r & evs & ds & Hr & Htr & Hhd & _ & _ & Hcalls & _).
    assert (new_events w w' = evs) as ->.
    { unfold new_events. rewrite Htr. apply drop_app_length. }
    subst r. split; [done|]. split; [done|]. by apply (Hreturned nd ip).
  - intros nd1 nd2 ip1 ip2 w1 w2 o1 o2 w1' w2' Hrun1 Hrun2 Hret1 Hret2.
    rewrite (Hreturned nd1 ip1 w1 o1 w1' Hrun1 Hret1).
    rewrite (Hreturned nd2 ip2 w2 o2 w2' Hrun2 Hret2).
    rewrite <- uuid4_of_collide. split; [|by intros ->].
    intros Heq. apply str_inj; [apply uuid4_of_fits..|].
    exact (f_equal (λ v, match v with
                         | Some (PStr s) => s
                         | _ => EmptyString
                         end) Heq).
  - intros nds ip w os w' Hrun.
    destruct (perform_each_summary _ _ _ _ _ Hrun)
      as (evs & ds & Htr & _ & Hfit & Hlen & Hsub).
    assert (new_events w w' = evs) as ->.
    { unfold new_events. rewrite Htr. apply drop_app_length. }
    split; [done|]. split; [|split; [done|]].
    + apply Forall_forall. intros v Hv.
      eapply elem_of_sublist in Hv; [|exact Hsub].
      apply list_elem_of_fmap in Hv as (u & -> & _).
      exists (uuid.str u). split; [done|apply str_length].
    + intros Hnodup. eapply sublist_NoDup; [|exact Hsub].
      apply NoDup_fmap_2_strong; [|done].
      intros u1 u2 Hu1 Hu2 Heq.
      rewrite Forall_forall in Hfit.
      apply str_inj; [by apply Hfit..|].
      exact (f_equal (λ v, match v with PStr s => s | _ => EmptyString end) Heq).
Qed.

(** C8 (as amended): the record is only ever extended.  The record that a
    protocol step is given is contained in the record that every later step
    is given, and in the record that the execution leaves behind; it is
    strictly larger from resolve to register_node and from create_node to
    register_started_node, where fields are assigned in between; and it is
    the same record from register_node to create_node and from
    register_started_node to the readiness wait, where none is. *)
Theorem record_only_grows nd ip w o w' :
  perform respond os_urandom (CreateNode nd) ip w = (o, w') →
  (∀ i j d1 d2,
     (i ≤ j)%nat →
     step_records (length (store w)) (new_events w w') !! i = Some d1 →
     step_records (length (store w)) (new_events w w') !! j = Some d2 →
     d1 ⊆ d2) ∧
  (∀ d d',
     d ∈ step_records (length (store w)) (new_events w w') →
     store w' !! length (store w) = Some d' →
     d ⊆ d') ∧
  (∀ d1 d2,
     step_records (length (store w)) (new_events w w') !! 0%nat = Some d1 →
     step_records (length (store w)) (new_events w w') !! 1%nat = Some d2 →
     d1 ⊂ d2) ∧
  (∀ d1 d2,
     step_records (length (store w)) (new_events w w') !! 2%nat = Some d1 →
     step_records (length (store w)) (new_events w w') !! 3%nat = Some d2 →
     d1 ⊂ d2) ∧
  (∀ d1 d2,
     step_records (length (store w)) (new_events w w') !! 1%nat = Some d1 →
     step_records (length (store w)) (new_events w w') !! 2%nat = Some d2 →
     d1 = d2) ∧
  (∀ d1 d2,
     step_records (length (store w)) (new_events w w') !! 3%nat = Some d1 →
     step_records (length (store w)) (new_events w w') !! 4%nat = Some d2 →
     d1 = d2).
Proof.
  revert o w'. wp_run; forget_calls.
  all: cbn [step_records omap list_omap step_event_of step_of];
    rewrite ?lookup_last; cbn [mbind option_bind app].
  all: split; [|split; [|split; [|split; [|split]]]].
  all: try (intros d1 d2 H1 H2; simpl in H1, H2;
            try discriminate H1; try discriminate H2;
            injection H1 as <-; injection H2 as <-).
  all: try (intros i j d1 d2 Hij; apply ascending_lookup; [|done];
            cbn [ascending]; repeat split; extends).
  all: try (intros d1 d2 Hin Hd'; elem_cases Hin; rewrite ?lookup_last in Hd';
            simplify_eq; extends).
  all: first
    [ reflexivity
    | solve [apply (grows_by _ _ "backend_id");
             [extends | by simplify_map_eq..]]
    | solve [apply (grows_by _ _ "instance_id");
             [extends | by simplify_map_eq..]] ].
Qed.

(** C9: when [node_description] has no [user_id], [CreateNode.perform] raises
    the [KeyError] itself, not a [NodeCreationError]; a UUID has been
    generated, no collaborator has been called and no record made. *)
Theorem missing_user_id_not_wrapped nd ip w o w' :
  nd !! "user_id" = None →
  perform respond os_urandom (CreateNode nd) ip w = (o, w') →
  o = Raise (KeyError "user_id") ∧
  (∃ u, new_events w w' = [Drawn u]) ∧
  store w' = store w.
Proof.
  intros Hnd. revert o w'. wp_run. eauto.
Qed.

(** C10: when [CreateNode.perform] returns, it returns the reference that
    [register_started_node] was given, together with the [infra_id] and the
    [name] of the node description; the record behind it is the one that
    call found, and it has exactly the six fields. *)
Theorem returned_record_is_persisted nd ip w v w' :
  perform respond os_urandom (CreateNode nd) ip w = (Ok v, w') →
  v = PRef (length (store w)) ∧
  ∃ d infra_id name h,
    nd !! "infra_id" = Some infra_id ∧
    nd !! "name" = Some name ∧
    store w' !! length (store w) = Some d ∧
    Invoke (uds_register_started_node infra_id name v) h ∈ new_events w w' ∧
    h !! length (store w) = Some d ∧
    dom d = instance_data_fields.
Proof.
  remember (Ok v) as o eqn:Ho. intros H. revert o w' H Ho.
  wp_run; forget_calls.
  all: intros Ho; try discriminate Ho.
  all: injection Ho as <-; simplify_eq; split; [done|]; do 4 eexists.
  all: split; [done|]; split; [done|].
  all: split; [apply lookup_last|]; split; [elem_of_list|];
    split; [apply lookup_last|].
  all: rewrite !dom_insert_L, dom_empty_L; unfold instance_data_fields;
    set_solver.
Qed.

(** ** Further properties of the commands *)

(** X1: [CreateInfrastructure.perform] makes one call, to the service composer's
    [create_infrastructure] with the command's [infra_id]; it returns what
    the call returned and raises what the call raised; the store is left as
    it was. *)
Theorem create_infrastructure_delegates infra_id ip w o w' :
  perform respond os_urandom (CreateInfrastructure infra_id) ip w = (o, w') →
  store w' = store w ∧
  new_events w w' =
    Invoke (servicecomposer_create_infrastructure infra_id) (store w) ::
    match o with
    | Ok v => [Return (servicecomposer_create_infrastructure infra_id) v]
    | Raise e => [Raised (servicecomposer_create_infrastructure infra_id) e]
    | Diverges => []
    end.
Proof.
  revert o w'. wp_run; done.
Qed.

(** X2: [DropInfrastructure.perform] makes one call, to the service composer's
    [drop_infrastructure]: no node is dropped and the cloud handler is not
    called.  It returns [None], whatever the call returned, and raises what
    the call raised; the store is left as it was. *)
Theorem drop_infrastructure_only_composer infra_id ip w o w' :
  perform respond os_urandom (DropInfrastructure infra_id) ip w = (o, w') →
  store w' = store w ∧
  invoked (new_events w w') = [servicecomposer_drop_infrastructure infra_id] ∧
  match o with
  | Ok v =>
      v = PNone ∧
      ∃ v1, last (new_events w w') =
              Some (Return (servicecomposer_drop_infrastructure infra_id) v1)
  | Raise e =>
      last (new_events w w') =
        Some (Raised (servicecomposer_drop_infrastructure infra_id) e)
  | Diverges =>
      last (new_events w w') =
        Some (Invoke (servicecomposer_drop_infrastructure infra_id) (store w))
  end.
Proof.
  revert o w'. wp_run; eauto 6.
Qed.

(** X3: when [CreateNode.perform] returns, the record holds the string of the
    generated UUID as [node_id], the [user_id] of the node description, the
    node description itself, the definition that the resolver returned for
    that [node_id] and node description, the [backend_id] of that
    definition, and the [instance_id] that the cloud handler's [create_node]
    returned for that definition.  The service composer's [register_node]
    was given the same definition, and the readiness wait the record and the
    poll delay of the context. *)
Theorem created_record_contents nd ip w v w' :
  perform respond os_urandom (CreateNode nd) ip w = (Ok v, w') →
  ∃ u resolved_node_def instance_id d,
    store w' !! length (store w) = Some d ∧
    head (new_events w w') = Some (Drawn u) ∧
    Return (resolve_node (PStr (uuid.str u)) (PDict nd)) resolved_node_def
      ∈ new_events w w' ∧
    servicecomposer_register_node resolved_node_def
      ∈ invoked (new_events w w') ∧
    Return (cloudhandler_create_node resolved_node_def) instance_id
      ∈ new_events w w' ∧
    synch_wait_for_node v (poll_delay ip) ∈ invoked (new_events w w') ∧
    d !! "node_id" = Some (PStr (uuid.str u)) ∧
    d !! "user_id" = nd !! "user_id" ∧
    d !! "node_description" = Some (PDict nd) ∧
    d !! "resolved_node_definition" = Some resolved_node_def ∧
    (∀ dr, resolved_node_def = PDict dr →
           d !! "backend_id" = dr !! "backend_id") ∧
    is_Some (d !! "backend_id") ∧
    d !! "instance_id" = Some instance_id.
Proof.
  remember (Ok v) as o eqn:Ho. intros H. revert o w' H Ho.
  wp_run; forget_calls.
  all: intros Ho; try discriminate Ho.
  all: injection Ho as <-; simplify_eq; do 4 eexists.
  all: split; [apply lookup_last|]; split; [reflexivity|].
  all: split; [elem_of_list|]; split; [cbn; elem_of_list|].
  all: split; [elem_of_list|]; split; [cbn; elem_of_list|].
  all: repeat split; try by simplify_map_eq.
  all: intros dr Hdr; simplify_eq; by simplify_map_eq.
Qed.

(** X4: an exception that does not derive from [Exception], such as
    [SystemExit], raised by a collaborator during [CreateNode.perform] is
    raised by [perform] unchanged: the [except] clauses wrap no such
    exception. *)
Theorem base_exceptions_pass nd ip w o w' c e :
  perform respond os_urandom (CreateNode nd) ip w = (o, w') →
  Raised c e ∈ new_events w w' →
  is_Exception e = false →
  o = Raise e.
Proof.
  revert o w'. wp_run; forget_calls.
  all: intros Hin Hex; elem_cases Hin; simplify_eq.
  all: unfold surfaced; by rewrite Hex.
Qed.

(** X5: [CreateNode.perform] returns exactly when the readiness wait has
    returned: nothing that follows the wait can fail, and nothing else makes
    [perform] return. *)
Theorem returns_iff_ready nd ip w o w' :
  perform respond os_urandom (CreateNode nd) ip w = (o, w') →
  returned o ↔
  ∃ instance_data delay v,
    Return (synch_wait_for_node instance_data delay) v ∈ new_events w w'.
Proof.
  revert o w'. wp_run; forget_calls.
  all: split;
    [ intros Hret; try (by destruct Hret); do 3 eexists; elem_of_list
    | intros (? & ? & ? & Hin); elem_cases Hin; done ].
Qed.

(** X6: when [node_description] has no [infra_id], or no [name], the user data
    store is never told of the node.  If the cloud handler's [create_node]
    has returned by then, the instance exists, and [perform] raises a
    [NodeCreationError] whose cause is the [KeyError] and whose record holds
    the [instance_id]. *)
Theorem provisioned_but_not_persisted nd ip w o w' :
  nd !! "infra_id" = None ∨ nd !! "name" = None →
  perform respond os_urandom (CreateNode nd) ip w = (o, w') →
  (∀ c, c ∈ invoked (new_events w w') → step_of c ≠ Some Persist) ∧
  (∀ resolved_node_def instance_id,
     Return (cloudhandler_create_node resolved_node_def) instance_id
       ∈ new_events w w' →
     ∃ k d,
       (k = "infra_id" ∨ k = "name") ∧
       o = Raise (NodeCreationError (PRef (length (store w))) (KeyError k)) ∧
       store w' !! length (store w) = Some d ∧
       d !! "instance_id" = Some instance_id).
Proof.
  intros [Hnd|Hnd]; revert o w'; wp_run; forget_calls.
  all: split;
    [ cbn; intros c Hin; elem_cases Hin; by subst
    | intros ? ? Hin; elem_cases Hin; simplify_eq ].
  all: do 2 eexists;
    (split; [|split; [done|split; [apply lookup_last|by simplify_map_eq]]]);
    first [by left | by right].
Qed.

(** X7: when the resolver returns a definition from which [backend_id] cannot
    be read (a dictionary without the key, or a value with no subscript),
    [perform] raises a [NodeCreationError] whose cause is the error of the
    subscript.  The record holds the definition and no [backend_id], and
    neither [register_node] nor any later step is invoked. *)
Theorem unusable_resolution nd ip w o w' node_id node_description v :
  perform respond os_urandom (CreateNode nd) ip w = (o, w') →
  Return (resolve_node node_id node_description) v ∈ new_events w w' →
  lacks_backend_id v →
  o = Raise (NodeCreationError (PRef (length (store w)))
                               (subscript_error v "backend_id")) ∧
  protocol_events (new_events w w') = [Started Resolve; Finished Resolve] ∧
  ∃ d, store w' !! length (store w) = Some d ∧
       d !! "resolved_node_definition" = Some v ∧
       d !! "backend_id" = None.
Proof.
  revert o w'. wp_run; forget_calls.
  all: intros Hin Hlacks; elem_cases Hin; simplify_eq.
  all: cbn [lacks_backend_id] in Hlacks; try done; try congruence.
  all: split; [reflexivity|]; split; [reflexivity|].
  all: eexists; split; [apply lookup_last|]; by simplify_map_eq.
Qed.

(** X8: [CreateNode.perform] makes no call twice and calls nothing that tears
    down a node or handles an infrastructure: there is no retry, and no
    rollback of the steps that succeeded before a failure. *)
Theorem no_retry_no_rollback nd ip w o w' :
  perform respond os_urandom (CreateNode nd) ip w = (o, w') →
  NoDup (invoked (new_events w w')) ∧
  Forall (λ c, creates c = true) (invoked (new_events w w')).
Proof.
  revert o w'. wp_run; forget_calls.
  all: cbn [invoked omap list_omap]; split.
  all: try (repeat (apply NoDup_cons; split;
                    [intros Hin; elem_cases Hin|]); apply NoDup_nil; done).
  all: repeat (apply Forall_cons; split; [done|]); apply Forall_nil; done.
Qed.

(** X9: no command changes or removes an object of the store: [perform] leaves
    the store as it was, except that [CreateNode.perform] may add one record
    at its end.  The trace is only appended to. *)
Theorem perform_preserves_store cmd ip w o w' :
  perform respond os_urandom cmd ip w = (o, w') →
  ∃ evs ds,
    trace w' = trace w ++ evs ∧
    store w' = store w ++ ds ∧
    (length ds ≤ 1)%nat ∧
    ((∀ nd, cmd ≠ CreateNode nd) → ds = []).
Proof.
  revert o w'. destruct cmd as [infra_id|nd|instance_data|infra_id]; wp_run.
  all: forget_calls; eexists; eexists; split; [reflexivity|].
  all: split; [first [reflexivity | symmetry; apply app_nil_r]|].
  all: split; [cbn; lia|]; intros Hc; first [done | by destruct (Hc nd)].
Qed.

Ltac persisted :=
  match goal with
  | |- context [uds_register_started_node ?a ?b ?x] =>
      exists (uds_register_started_node a b x); split; [elem_of_list|done]
  end.

(** X10: a failure of the information broker's [get], which is called only for a
    log line, fails the creation: [perform] raises a [NodeCreationError]
    after the record was handed to the user data store, and the readiness
    wait is not started. *)
Theorem broker_failure_fails_creation nd ip w o w' key instance_data e :
  perform respond os_urandom (CreateNode nd) ip w = (o, w') →
  Raised (ib_get key instance_data) e ∈ new_events w w' →
  is_Exception e = true →
  o = Raise (NodeCreationError (PRef (length (store w))) e) ∧
  (∃ c, c ∈ invoked (new_events w w') ∧ step_of c = Some Persist) ∧
  (∀ c, c ∈ invoked (new_events w w') → step_of c ≠ Some Synchronize).
Proof.
  revert o w'. wp_run; forget_calls.
  all: intros Hin Hex; elem_cases Hin; simplify_eq.
  all: unfold surfaced; rewrite Hex; split; [done|].
  all: cbn [invoked omap list_omap]; split;
    [ persisted | intros c Hc; elem_cases Hc; by subst ].
Qed.

(** X11: a [NodeCreationError] that [CreateNode.perform] raises holds the
    reference to the record of this invocation and an exception that derives
    from [Exception]; the record has at least the three fields of the first
    assignment: the string of the generated UUID as [node_id], the [user_id]
    of the node description, and the node description. *)
Theorem error_record_identifies_node nd ip w x cause w' :
  perform respond os_urandom (CreateNode nd) ip w =
    (Raise (NodeCreationError x cause), w') →
  x = PRef (length (store w)) ∧
  is_Exception cause = true ∧
  ∃ u d,
    head (new_events w w') = Some (Drawn u) ∧
    store w' !! length (store w) = Some d ∧
    d !! "node_id" = Some (PStr (uuid.str u)) ∧
    d !! "user_id" = nd !! "user_id" ∧
    d !! "node_description" = Some (PDict nd).
Proof.
  remember (Raise (NodeCreationError x cause)) as o eqn:Ho.
  intros H. revert o w' H Ho. wp_run; forget_calls.
  all: intros Ho; try discriminate Ho.
  all: unfold surfaced in Ho;
    match type of Ho with
    | context [is_Exception ?e] =>
        destruct (is_Exception e) eqn:Hex;
        [|try (injection Ho as ->); cbn in Hex; discriminate Hex]
    end.
  all: injection Ho as <- <-; split; [done|]; split; [done|].
  all: do 2 eexists; split; [reflexivity|]; split; [apply lookup_last|].
  all: by simplify_map_eq.
Qed.

(** X12: when the readiness wait never returns, neither does [perform]: the wait
    has no timeout.  By then the record has been handed to the user data
    store. *)
Theorem unbounded_wait nd ip w o w' instance_data delay h :
  perform respond os_urandom (CreateNode nd) ip w = (o, w') →
  last (new_events w w') =
    Some (Invoke (synch_wait_for_node instance_data delay) h) →
  o = Diverges ∧
  instance_data = PRef (length (store w)) ∧
  delay = poll_delay ip ∧
  ∃ c, c ∈ invoked (new_events w w') ∧ step_of c = Some Persist.
Proof.
  revert o w'. wp_run; forget_calls.
  all: cbn [last]; intros Hlast; try discriminate Hlast.
  all: injection Hlast as <- <- <-; repeat split.
  all: cbn [invoked omap list_omap]; persisted.
Qed.

(** What [DropNode.perform] calls, and on which store. *)
Lemma DropNode_perform_calls x ip w o w' :
  perform respond os_urandom (DropNode x) ip w = (o, w') →
  store w' = store w ∧
  head (new_events w w') = Some (Invoke (cloudhandler_drop_node x) (store w)) ∧
  ∀ c h, Invoke c h ∈ new_events w w' →
         h = store w ∧
         (c = cloudhandler_drop_node x ∨ c = servicecomposer_drop_node x).
Proof.
  revert o w'. wp_run; forget_calls.
  all: split; [done|]; split; [done|].
  all: intros c h' Hin; elem_cases Hin; simplify_eq; auto.
Qed.

(** X13: dropping the node that [cri_create_node] made: the command of
    [cri_drop_node] for what [CreateNode.perform] returned hands that
    reference to the cloud handler first; every teardown call finds
    the record as the creation left it, [instance_id] included; and the
    teardown leaves the record in the store, unchanged. *)
Theorem drop_after_create nd ip w v w1 o w2 :
  perform respond os_urandom (cri_create_node nd) ip w = (Ok v, w1) →
  perform respond os_urandom (cri_drop_node v) ip w1 = (o, w2) →
  ∃ d,
    v = PRef (length (store w)) ∧
    store w1 !! length (store w) = Some d ∧
    is_Some (d !! "instance_id") ∧
    store w2 = store w1 ∧
    head (new_events w1 w2) =
      Some (Invoke (cloudhandler_drop_node v) (store w1)) ∧
    ∀ c h, Invoke c h ∈ new_events w1 w2 →
           h !! length (store w) = Some d ∧
           (c = cloudhandler_drop_node v ∨ c = servicecomposer_drop_node v).
Proof.
  unfold cri_create_node, cri_drop_node.
  remember (Ok v) as o1 eqn:Ho1. intros Hcreate. revert o1 w1 Hcreate Ho1 o w2.
  wp_run; forget_calls.
  all: intros Ho1; try discriminate Ho1.
  all: injection Ho1 as <-; intros o w2 Hdrop.
  all: destruct (DropNode_perform_calls (PRef (length h)) ip _ _ _ Hdrop)
         as (Hst & Hhd & Hcalls).
  all: cbn [store] in Hst, Hhd, Hcalls.
  all: eexists; split; [done|]; split; [apply lookup_last|].
  all: split; [by simplify_map_eq|]; split; [done|]; split; [done|].
  all: intros c h' Hin; destruct (Hcalls c h' Hin) as [-> Hc].
  all: split; [apply lookup_last|done].
Qed.

(** X14: the attributes that [BasicInfraProcessor.__init__] sets itself are the
    broker and the constructor's arguments, whatever [config] holds under
    those names.  Every other attribute is the one of [config] when
    [config] has it, also when the base constructor had set it, and the one
    of the base constructor otherwise. *)
Theorem init_attribute_precedence base main_info_broker user_data_store
    cloudhandler servicecomposer poll_delay config k :
  k ∉ ({[ "ib"; "uds"; "cloudhandler"; "servicecomposer"; "poll_delay" ]}
         : gset string) →
  let attrs :=
    BasicInfraProcessor___init__ base main_info_broker user_data_store
      cloudhandler servicecomposer poll_delay config in
  attrs !! "ib" = Some main_info_broker ∧
  attrs !! "uds" = Some user_data_store ∧
  attrs !! "cloudhandler" = Some cloudhandler ∧
  attrs !! "servicecomposer" = Some servicecomposer ∧
  attrs !! "poll_delay" = Some poll_delay ∧
  attrs !! k = match config !! k with
               | Some v => Some v
               | None => base !! k
               end.
Proof.
  intros Hk attrs. unfold attrs, BasicInfraProcessor___init__.
  repeat split; try by simplify_map_eq.
  rewrite !lookup_insert_ne by set_solver.
  rewrite lookup_union. by destruct (config !! k), (base !! k).
Qed.

(** The user data store and the readiness wait are given the same record. *)
Lemma persisted_record_is_awaited nd ip w o w' :
  perform respond os_urandom (CreateNode nd) ip w = (o, w') →
  returned o →
  ∃ d,
    step_records (length (store w)) (new_events w w') !! 3%nat = Some d ∧
    step_records (length (store w)) (new_events w w') !! 4%nat = Some d.
Proof.
  revert o w'. wp_run; forget_calls.
  all: intros Hret; try (by destruct Hret).
  all: cbn [step_records omap list_omap step_of];
    rewrite ?lookup_last; cbn [mbind option_bind app].
  all: by eexists.
Qed.

End Properties.

(** ** Worked scenarios *)

Import Scenario.

Ltac evaluated := vm_compute; reflexivity.

Lemma protocol_steps_in_order_witness :
  in_order protocol (protocol_events (new_events start (create no_fault).2)) ∧
  (returned (create no_fault).1 →
   protocol_events (new_events start (create no_fault).2) =
     [Started Resolve; Finished Resolve; Started Register; Finished Register;
      Started Provision; Finished Provision; Started Persist; Finished Persist;
      Started Synchronize; Finished Synchronize]).
Proof.
  apply (protocol_steps_in_order (respond no_fault) os_urandom
           node_description infraprocessor start).
  evaluated.
Defined.

Lemma failures_are_wrapped_witness :
  perform (respond quota_exceeded) os_urandom (CreateNode node_description)
          infraprocessor start =
    (Raise (NodeCreationError (PRef 0%nat) (RuntimeError "quota exceeded")),
     (create quota_exceeded).2) ∧
  ((create quota_exceeded).1 =
     Raise (NodeCreationError (PRef 0%nat) (RuntimeError "quota exceeded")) ∧
   ∃ h d,
     Invoke (cloudhandler_create_node resolved_node_def) h
       ∈ new_events start (create quota_exceeded).2 ∧
     h !! 0%nat = Some d ∧
     store (create quota_exceeded).2 !! 0%nat = Some d) ∧
  ∃ c, last (new_events start (drop composer_down (PRef 0%nat) start).2) =
         Some (Raised c (RuntimeError "unreachable")).
Proof.
  destruct (failures_are_wrapped (respond quota_exceeded) os_urandom)
    as (Hprotocol & Hcall & _).
  destruct (failures_are_wrapped (respond composer_down) os_urandom)
    as (_ & _ & Hother).
  split; [|split].
  - apply (Hprotocol node_description infraprocessor start 0%nat
             (CreateNode_instance_data os_urandom node_description start).2
             (RuntimeError "quota exceeded")).
    + evaluated.
    + evaluated.
    + reflexivity.
  - apply (Hcall node_description infraprocessor start
             (create quota_exceeded).1 (create quota_exceeded).2
             (cloudhandler_create_node resolved_node_def)
             (RuntimeError "quota exceeded")).
    + evaluated.
    + vm_compute. elem_of_list.
    + reflexivity.
  - apply (Hother (DropNode (PRef 0%nat)) infraprocessor start
             (RuntimeError "unreachable")).
    + discriminate.
    + evaluated.
Defined.

Lemma cancellation_propagates_witness :
  (∀ c, Raised c KeyboardInterrupt ∈ new_events start (create interrupted).2 →
        (create interrupted).1 = Raise KeyboardInterrupt) ∧
  (∀ x cause, (create interrupted).1 = Raise (NodeCreationError x cause) →
              cause ≠ KeyboardInterrupt).
Proof.
  apply (cancellation_propagates (respond interrupted) os_urandom
           node_description infraprocessor start).
  evaluated.
Defined.

Lemma partial_record_on_failure_witness :
  (∃ d, (create resolver_down).1 =
          Raise (NodeCreationError (PRef 0%nat) (RuntimeError "unknown backend")) ∧
        store (create resolver_down).2 !! 0%nat = Some d ∧
        d !! "resolved_node_definition" = None ∧
        d !! "instance_id" = None) ∧
  (∃ d, (create quota_exceeded).1 =
          Raise (NodeCreationError (PRef 0%nat) (RuntimeError "quota exceeded")) ∧
        store (create quota_exceeded).2 !! 0%nat = Some d ∧
        d !! "resolved_node_definition" = Some resolved_node_def ∧
        is_Some (d !! "backend_id") ∧
        d !! "instance_id" = None).
Proof.
  split.
  - destruct (partial_record_on_failure (respond resolver_down) os_urandom
                node_description infraprocessor start
                (create resolver_down).1 (create resolver_down).2)
      as [Hresolve _]; [evaluated|].
    apply (Hresolve (PStr "9e3779b9-7f4a-4c15-b39c-c0605cedc835")
                    (PDict node_description)).
    + vm_compute. elem_of_list.
    + reflexivity.
  - destruct (partial_record_on_failure (respond quota_exceeded) os_urandom
                node_description infraprocessor start
                (create quota_exceeded).1 (create quota_exceeded).2)
      as [_ Hprovision]; [evaluated|].
    apply Hprovision.
    + vm_compute. elem_of_list.
    + reflexivity.
Defined.

Lemma scenario_resolver_keeps_contract fault :
  fault = no_fault ∨ fault = quota_exceeded →
  resolver_contract (respond fault).
Proof.
  intros [-> | ->] node_id nd h s v s' H; injection H as <- <-;
    eexists; (split; [reflexivity|]); by rewrite lookup_insert_eq.
Qed.

Lemma backend_id_iff_resolved_witness :
  (∀ i c h,
     new_events start (create quota_exceeded).2 !! i = Some (Invoke c h) →
     has_field h 0%nat "backend_id" ↔
     resolved (take i (new_events start (create quota_exceeded).2))) ∧
  (has_field (store (create quota_exceeded).2) 0%nat "backend_id" ↔
   resolved (new_events start (create quota_exceeded).2)).
Proof.
  apply (backend_id_iff_resolved (respond quota_exceeded) os_urandom
           node_description infraprocessor start (create quota_exceeded).1).
  - apply scenario_resolver_keeps_contract. by right.
  - evaluated.
Defined.

Lemma drop_node_order_witness :
  ∃ h,
    match (drop composer_down (PRef 0%nat) start).1 with
    | Ok v =>
        v = PNone ∧
        ∃ v1 v2,
          new_events start (drop composer_down (PRef 0%nat) start).2 =
            [Invoke (cloudhandler_drop_node (PRef 0%nat)) h;
             Return (cloudhandler_drop_node (PRef 0%nat)) v1;
             Invoke (servicecomposer_drop_node (PRef 0%nat)) h;
             Return (servicecomposer_drop_node (PRef 0%nat)) v2]
    | Raise e =>
        new_events start (drop composer_down (PRef 0%nat) start).2 =
          [Invoke (cloudhandler_drop_node (PRef 0%nat)) h;
           Raised (cloudhandler_drop_node (PRef 0%nat)) e] ∨
        ∃ v1,
          new_events start (drop composer_down (PRef 0%nat) start).2 =
            [Invoke (cloudhandler_drop_node (PRef 0%nat)) h;
             Return (cloudhandler_drop_node (PRef 0%nat)) v1;
             Invoke (servicecomposer_drop_node (PRef 0%nat)) h;
             Raised (servicecomposer_drop_node (PRef 0%nat)) e]
    | Diverges =>
        new_events start (drop composer_down (PRef 0%nat) start).2 =
          [Invoke (cloudhandler_drop_node (PRef 0%nat)) h] ∨
        ∃ v1,
          new_events start (drop composer_down (PRef 0%nat) start).2 =
            [Invoke (cloudhandler_drop_node (PRef 0%nat)) h;
             Return (cloudhandler_drop_node (PRef 0%nat)) v1;
             Invoke (servicecomposer_drop_node (PRef 0%nat)) h]
    end.
Proof.
  apply (drop_node_order (respond composer_down) os_urandom (PRef 0%nat)
           infraprocessor start).
  evaluated.
Defined.

(** C7, as stated, fails: with an entropy source that repeats itself, two
    invocations return records with the same [node_id]. *)
Lemma node_ids_can_repeat :
  ¬ distinct_node_ids (respond no_fault) repeating_urandom
      [node_description; node_description] infraprocessor start.
Proof.
  unfold distinct_node_ids. intros Hdistinct. vm_compute in Hdistinct.
  apply NoDup_cons in Hdistinct as [Hfirst _].
  apply Hfirst. left.
Qed.

(** One invocation; two invocations, the second from where the first ended;
    and three invocations in a row, the second for a node description without
    [user_id]. *)
Lemma node_ids_fresh_witness :
  let again := perform (respond no_fault) os_urandom (CreateNode node_description)
                 infraprocessor (create no_fault).2 in
  let run := perform_each (respond no_fault) os_urandom
               [node_description; anonymous; node_description]
               infraprocessor start in
  (let u := uuid.uuid4_of (os_urandom (ext start)).1 in
   head (new_events start (create no_fault).2) = Some (Drawn u) ∧
   (∀ c h d, Invoke c h ∈ new_events start (create no_fault).2 →
             h !! 0%nat = Some d →
             d !! "node_id" = Some (PStr (uuid.str u))) ∧
   (returned (create no_fault).1 →
    node_id_of (store (create no_fault).2) (create no_fault).1 =
      Some (PStr (uuid.str u)))) ∧
  node_id_of (store (create no_fault).2) (create no_fault).1 ≠
    node_id_of (store again.2) again.1 ∧
  length (returned_node_ids (store run.2) run.1) = 2%nat ∧
  NoDup (returned_node_ids (store run.2) run.1).
Proof.
  intros again run.
  destruct (node_ids_fresh (respond no_fault) os_urandom)
    as (Hone & Htwo & Hmany).
  split; [|split].
  - apply (Hone node_description infraprocessor start). evaluated.
  - intros Heq.
    apply (Htwo node_description node_description infraprocessor infraprocessor
             start (create no_fault).2 (create no_fault).1 again.1
             (create no_fault).2 again.2) in Heq;
      [|evaluated|evaluated|vm_compute; exact I..].
    vm_compute in Heq. discriminate Heq.
  - destruct (Hmany [node_description; anonymous; node_description]
                infraprocessor start run.1 run.2)
      as (Hlen & _ & _ & Hdistinct); [evaluated|].
    split.
    + rewrite Hlen. evaluated.
    + apply Hdistinct. vm_compute.
      repeat (apply NoDup_cons; split;
              [intros Hin; elem_cases Hin|]).
      apply NoDup_nil_2.
Defined.

(** C8, as stated, fails: the user data store and the readiness wait are
    given the same record. *)
Lemma growth_is_not_strict :
  ¬ strictly_growing (respond no_fault) os_urandom node_description
      infraprocessor start.
Proof.
  unfold strictly_growing. intros Hgrow.
  destruct (persisted_record_is_awaited (respond no_fault) os_urandom
              node_description infraprocessor start
              (create no_fault).1 (create no_fault).2)
    as (d & Hpersist & Hwait); [evaluated | vm_compute; exact I |].
  destruct (Hgrow 3%nat 4%nat d d) as [_ Hstrict]; [lia|exact Hpersist..|].
  by apply Hstrict.
Qed.

Lemma record_only_grows_witness :
  (∀ i j d1 d2,
     (i ≤ j)%nat →
     step_records 0%nat (new_events start (create no_fault).2) !! i = Some d1 →
     step_records 0%nat (new_events start (create no_fault).2) !! j = Some d2 →
     d1 ⊆ d2) ∧
  (∀ d d',
     d ∈ step_records 0%nat (new_events start (create no_fault).2) →
     store (create no_fault).2 !! 0%nat = Some d' →
     d ⊆ d') ∧
  (∀ d1 d2,
     step_records 0%nat (new_events start (create no_fault).2) !! 0%nat = Some d1 →
     step_records 0%nat (new_events start (create no_fault).2) !! 1%nat = Some d2 →
     d1 ⊂ d2) ∧
  (∀ d1 d2,
     step_records 0%nat (new_events start (create no_fault).2) !! 2%nat = Some d1 →
     step_records 0%nat (new_events start (create no_fault).2) !! 3%nat = Some d2 →
     d1 ⊂ d2) ∧
  (∀ d1 d2,
     step_records 0%nat (new_events start (create no_fault).2) !! 1%nat = Some d1 →
     step_records 0%nat (new_events start (create no_fault).2) !! 2%nat = Some d2 →
     d1 = d2) ∧
  (∀ d1 d2,
     step_records 0%nat (new_events start (create no_fault).2) !! 3%nat = Some d1 →
     step_records 0%nat (new_events start (create no_fault).2) !! 4%nat = Some d2 →
     d1 = d2).
Proof.
  apply (record_only_grows (respond no_fault) os_urandom node_description
           infraprocessor start (create no_fault).1).
  evaluated.
Defined.

Lemma missing_user_id_not_wrapped_witness :
  let run := perform (respond no_fault) os_urandom (CreateNode anonymous)
               infraprocessor start in
  run.1 = Raise (KeyError "user_id") ∧
  (∃ u, new_events start run.2 = [Drawn u]) ∧
  store run.2 = store start.
Proof.
  intros run.
  apply (missing_user_id_not_wrapped (respond no_fault) os_urandom anonymous
           infraprocessor start).
  - evaluated.
  - evaluated.
Defined.

Lemma returned_record_is_persisted_witness :
  PRef 0%nat = PRef 0%nat ∧
  ∃ d infra_id name h,
    node_description !! "infra_id" = Some infra_id ∧
    node_description !! "name" = Some name ∧
    store (create no_fault).2 !! 0%nat = Some d ∧
    Invoke (uds_register_started_node infra_id name (PRef 0%nat)) h
      ∈ new_events start (create no_fault).2 ∧
    h !! 0%nat = Some d ∧
    dom d = instance_data_fields.
Proof.
  apply (returned_record_is_persisted (respond no_fault) os_urandom
           node_description infraprocessor start (PRef 0%nat)).
  evaluated.
Defined.

Lemma create_infrastructure_delegates_witness :
  let run := perform (respond no_fault) os_urandom
               (CreateInfrastructure (PStr "i1")) infraprocessor start in
  store run.2 = store start ∧
  new_events start run.2 =
    Invoke (servicecomposer_create_infrastructure (PStr "i1")) (store start) ::
    match run.1 with
    | Ok v => [Return (servicecomposer_create_infrastructure (PStr "i1")) v]
    | Raise e => [Raised (servicecomposer_create_infrastructure (PStr "i1")) e]
    | Diverges => []
    end.
Proof.
  intros run.
  apply (create_infrastructure_delegates (respond no_fault) os_urandom
           (PStr "i1") infraprocessor start).
  evaluated.
Defined.

Lemma drop_infrastructure_only_composer_witness :
  let run := perform (respond no_fault) os_urandom
               (DropInfrastructure (PStr "i1")) infraprocessor start in
  store run.2 = store start ∧
  invoked (new_events start run.2) =
    [servicecomposer_drop_infrastructure (PStr "i1")] ∧
  match run.1 with
  | Ok v =>
      v = PNone ∧
      ∃ v1, last (new_events start run.2) =
              Some (Return (servicecomposer_drop_infrastructure (PStr "i1")) v1)
  | Raise e =>
      last (new_events start run.2) =
        Some (Raised (servicecomposer_drop_infrastructure (PStr "i1")) e)
  | Diverges =>
      last (new_events start run.2) =
        Some (Invoke (servicecomposer_drop_infrastructure (PStr "i1"))
                     (store start))
  end.
Proof.
  intros run.
  apply (drop_infrastructure_only_composer (respond no_fault) os_urandom
           (PStr "i1") infraprocessor start).
  evaluated.
Defined.

Lemma created_record_contents_witness :
  ∃ u resolved_node_def instance_id d,
    store (create no_fault).2 !! 0%nat = Some d ∧
    head (new_events start (create no_fault).2) = Some (Drawn u) ∧
    Return (resolve_node (PStr (uuid.str u)) (PDict node_description))
           resolved_node_def
      ∈ new_events start (create no_fault).2 ∧
    servicecomposer_register_node resolved_node_def
      ∈ invoked (new_events start (create no_fault).2) ∧
    Return (cloudhandler_create_node resolved_node_def) instance_id
      ∈ new_events start (create no_fault).2 ∧
    synch_wait_for_node (PRef 0%nat) (poll_delay infraprocessor)
      ∈ invoked (new_events start (create no_fault).2) ∧
    d !! "node_id" = Some (PStr (uuid.str u)) ∧
    d !! "user_id" = node_description !! "user_id" ∧
    d !! "node_description" = Some (PDict node_description) ∧
    d !! "resolved_node_definition" = Some resolved_node_def ∧
    (∀ dr, resolved_node_def = PDict dr →
           d !! "backend_id" = dr !! "backend_id") ∧
    is_Some (d !! "backend_id") ∧
    d !! "instance_id" = Some instance_id.
Proof.
  apply (created_record_contents (respond no_fault) os_urandom
           node_description infraprocessor start (PRef 0%nat)).
  evaluated.
Defined.

Lemma base_exceptions_pass_witness :
  (create exit_requested).1 = Raise SystemExit.
Proof.
  apply (base_exceptions_pass (respond exit_requested) os_urandom
           node_description infraprocessor start
           (create exit_requested).1 (create exit_requested).2
           (servicecomposer_register_node resolved_node_def) SystemExit).
  - evaluated.
  - vm_compute. elem_of_list.
  - reflexivity.
Defined.

Lemma returns_iff_ready_witness :
  returned (create no_fault).1 ↔
  ∃ instance_data delay v,
    Return (synch_wait_for_node instance_data delay) v
      ∈ new_events start (create no_fault).2.
Proof.
  apply (returns_iff_ready (respond no_fault) os_urandom node_description
           infraprocessor start).
  evaluated.
Defined.

Lemma provisioned_but_not_persisted_witness :
  let run := perform (respond no_fault) os_urandom (CreateNode nameless)
               infraprocessor start in
  (∀ c, c ∈ invoked (new_events start run.2) → step_of c ≠ Some Persist) ∧
  ∃ k d,
    (k = "infra_id" ∨ k = "name") ∧
    run.1 = Raise (NodeCreationError (PRef 0%nat) (KeyError k)) ∧
    store run.2 !! 0%nat = Some d ∧
    d !! "instance_id" = Some (PStr "vm-42").
Proof.
  intros run.
  destruct (provisioned_but_not_persisted (respond no_fault) os_urandom
              nameless infraprocessor start run.1 run.2)
    as [Hnever Hleft]; [right; evaluated | evaluated |].
  split; [exact Hnever|].
  apply (Hleft resolved_node_def). vm_compute. elem_of_list.
Defined.

Lemma unusable_resolution_witness :
  (create empty_resolution).1 =
    Raise (NodeCreationError (PRef 0%nat) (KeyError "backend_id")) ∧
  protocol_events (new_events start (create empty_resolution).2) =
    [Started Resolve; Finished Resolve] ∧
  ∃ d, store (create empty_resolution).2 !! 0%nat = Some d ∧
       d !! "resolved_node_definition" = Some (PDict ∅) ∧
       d !! "backend_id" = None.
Proof.
  apply (unusable_resolution (respond empty_resolution) os_urandom
           node_description infraprocessor start
           (create empty_resolution).1 (create empty_resolution).2
           (PStr "9e3779b9-7f4a-4c15-b39c-c0605cedc835")
           (PDict node_description) (PDict ∅)).
  - evaluated.
  - vm_compute. elem_of_list.
  - reflexivity.
Defined.

Lemma no_retry_no_rollback_witness :
  NoDup (invoked (new_events start (create quota_exceeded).2)) ∧
  Forall (λ c, creates c = true)
         (invoked (new_events start (create quota_exceeded).2)).
Proof.
  apply (no_retry_no_rollback (respond quota_exceeded) os_urandom
           node_description infraprocessor start (create quota_exceeded).1).
  evaluated.
Defined.

Lemma perform_preserves_store_witness :
  ∃ evs ds,
    trace (create no_fault).2 = trace start ++ evs ∧
    store (create no_fault).2 = store start ++ ds ∧
    (length ds ≤ 1)%nat ∧
    ((∀ nd, CreateNode node_description ≠ CreateNode nd) → ds = []).
Proof.
  apply (perform_preserves_store (respond no_fault) os_urandom
           (CreateNode node_description) infraprocessor start
           (create no_fault).1).
  evaluated.
Defined.

Lemma broker_failure_fails_creation_witness :
  (create broker_down).1 =
    Raise (NodeCreationError (PRef 0%nat) (RuntimeError "no such key")) ∧
  (∃ c, c ∈ invoked (new_events start (create broker_down).2) ∧
        step_of c = Some Persist) ∧
  (∀ c, c ∈ invoked (new_events start (create broker_down).2) →
        step_of c ≠ Some Synchronize).
Proof.
  apply (broker_failure_fails_creation (respond broker_down) os_urandom
           node_description infraprocessor start
           (create broker_down).1 (create broker_down).2
           "node.resource.address" (PRef 0%nat) (RuntimeError "no such key")).
  - evaluated.
  - vm_compute. elem_of_list.
  - reflexivity.
Defined.

Lemma error_record_identifies_node_witness :
  PRef 0%nat = PRef 0%nat ∧
  is_Exception (RuntimeError "quota exceeded") = true ∧
  ∃ u d,
    head (new_events start (create quota_exceeded).2) = Some (Drawn u) ∧
    store (create quota_exceeded).2 !! 0%nat = Some d ∧
    d !! "node_id" = Some (PStr (uuid.str u)) ∧
    d !! "user_id" = node_description !! "user_id" ∧
    d !! "node_description" = Some (PDict node_description).
Proof.
  apply (error_record_identifies_node (respond quota_exceeded) os_urandom
           node_description infraprocessor start).
  evaluated.
Defined.

Lemma unbounded_wait_witness :
  (create never_ready).1 = Diverges ∧
  PRef 0%nat = PRef 0%nat ∧
  10 = poll_delay infraprocessor ∧
  ∃ c, c ∈ invoked (new_events start (create never_ready).2) ∧
       step_of c = Some Persist.
Proof.
  apply (unbounded_wait (respond never_ready) os_urandom node_description
           infraprocessor start (create never_ready).1 (create never_ready).2
           (PRef 0%nat) 10 (store (create never_ready).2)).
  - evaluated.
  - evaluated.
Defined.

Lemma drop_after_create_witness :
  let made := (create no_fault).2 in
  let run := drop composer_down (PRef 0%nat) made in
  ∃ d,
    PRef 0%nat = PRef 0%nat ∧
    store made !! 0%nat = Some d ∧
    is_Some (d !! "instance_id") ∧
    store run.2 = store made ∧
    head (new_events made run.2) =
      Some (Invoke (cloudhandler_drop_node (PRef 0%nat)) (store made)) ∧
    ∀ c h, Invoke c h ∈ new_events made run.2 →
           h !! 0%nat = Some d ∧
           (c = cloudhandler_drop_node (PRef 0%nat) ∨
            c = servicecomposer_drop_node (PRef 0%nat)).
Proof.
  intros made run.
  apply (drop_after_create (respond composer_down) os_urandom
           node_description infraprocessor start (PRef 0%nat) made run.1 run.2).
  - evaluated.
  - evaluated.
Defined.

Lemma init_attribute_precedence_witness :
  let attrs :=
    BasicInfraProcessor___init__
      (<["strategy" := PStr "sequential"]> ∅)
      (PStr "main broker") (PStr "store") (PStr "cloud") (PStr "composer")
      (PInt 10)
      (<["strategy" := PStr "mine"]> (<["uds" := PStr "other store"]> ∅)) in
  attrs !! "ib" = Some (PStr "main broker") ∧
  attrs !! "uds" = Some (PStr "store") ∧
  attrs !! "cloudhandler" = Some (PStr "cloud") ∧
  attrs !! "servicecomposer" = Some (PStr "composer") ∧
  attrs !! "poll_delay" = Some (PInt 10) ∧
  attrs !! "strategy" = Some (PStr "mine").
Proof.
  intros attrs.
  destruct (init_attribute_precedence
              (<["strategy" := PStr "sequential"]> ∅)
              (PStr "main broker") (PStr "store") (PStr "cloud")
              (PStr "composer") (PInt 10)
              (<["strategy" := PStr "mine"]> (<["uds" := PStr "other store"]> ∅))
              "strategy")
    as (Hib & Huds & Hch & Hsc & Hpd & Hk).
  { apply (bool_decide_unpack _). vm_compute. exact I. }
  repeat split; assumption.
Defined.
